(** * Virtual fence simulator (polygonal fences)

    A shallow embedding of [virtual_fence_simulator_polygonal.py]: the
    [Animal] class, the engine state held by [VirtualFenceApp], and the
    callbacks that change it (fence drawing, spawning and removing animals,
    the tick loop, saving and loading a configuration), followed by the
    properties of the specification that were checked against them.

    Conventions of the embedding.
    - Python numbers are kept abstract behind the class [Num], which lists
      exactly the operations the program applies to them.  Two instances are
      given: IEEE binary64 (what CPython computes with) and the exact reals
      (what the specification phrases "over the reals").
    - A Python exception is a value: pure functions return [pyres], callbacks
      return [Res], which also carries the state reached when the exception
      left the callback (Python mutates in place, so what was written before
      the raise stays written).
    - Random draws and the wall clock are inputs of the functions that read
      them.
    - Tk widgets are reduced to what the engine reads back from them: the
      values of the Tk variables, the configured canvas size, the ids of the
      canvas items, the text log and the message boxes shown. *)

From Stdlib Require Import ZArith String List Bool Lia DecimalString.
From Stdlib Require Import Reals Lra.
From Stdlib Require Import Floats.PrimFloat Floats.FloatOps Floats.SpecFloat.
From Stdlib Require Uint63.
Import ListNotations.

Set Warnings "-inexact-float".
Local Open Scope Z_scope.

(** ** Exceptions and results *)

Inductive Exn : Type :=
| ZeroDivisionError
| ValueError
| OverflowError.

(** The result of a pure Python expression that may raise. *)
Inductive pyres (A : Type) : Type :=
| Val (v : A)
| Exc (e : Exn).
Arguments Val {A} v.
Arguments Exc {A} e.

(** ** Numbers *)

(** The numeric operations the program uses.  [flt a b] is [a < b] (and
    [b > a]); [is_zero d] tells when [n / d] raises [ZeroDivisionError];
    [of_int] is the implicit conversion of a Python [int] operand;
    [to_int] is [int(...)], which raises on NaN and on infinities;
    the three literals are the non-integer constants of the source. *)
Class Num (F : Type) : Type := {
  fadd : F -> F -> F;
  fsub : F -> F -> F;
  fmul : F -> F -> F;
  fdiv : F -> F -> F;
  flt : F -> F -> bool;
  is_zero : F -> bool;
  of_int : Z -> F;
  to_int : F -> pyres Z;
  hypot : F -> F -> F;
  lit_1e_12 : F;
  lit_1e_6 : F;
  lit_neg_0_6 : F
}.

Declare Scope num_scope.
Delimit Scope num_scope with num.
Infix "+" := fadd : num_scope.
Infix "-" := fsub : num_scope.
Infix "*" := fmul : num_scope.
Infix "/" := fdiv : num_scope.
Infix "<?" := flt : num_scope.
Notation "a >? b" := (flt b a) : num_scope.

(** Python's [max(a, b)] on two arguments: the first one unless the second
    is strictly greater. *)
Definition pymax {F} `{Num F} (a b : F) : F :=
  if (a <? b)%num then b else a.

(** *** IEEE binary64 *)

(** Conversion of an [int]; exact for magnitudes below 2^53, which covers
    every canvas coordinate and the integer constants of the source. *)
Definition float_of_Z (z : Z) : float :=
  match z with
  | Z0 => PrimFloat.zero
  | Zpos _ => PrimFloat.of_uint63 (Uint63.of_Z z)
  | Zneg p => PrimFloat.opp (PrimFloat.of_uint63 (Uint63.of_Z (Zpos p)))
  end.

(** [int(f)]: truncation toward zero, [ValueError] on NaN, [OverflowError]
    on an infinity. *)
Definition float_to_int (f : float) : pyres Z :=
  match Prim2SF f with
  | S754_zero _ => Val 0
  | S754_infinity _ => Exc OverflowError
  | S754_nan => Exc ValueError
  | S754_finite s m e =>
      let mag := Z.shiftl (Zpos m) e in
      Val (if s then - mag else mag)
  end.

(** [math.hypot] as the rounded square root of the rounded sum of squares.
    libm's routine may differ from this in the last bit and avoids
    intermediate overflow; no property below depends on that difference
    (the binary64 evaluations use arguments on which both agree). *)
Definition float_hypot (a b : float) : float :=
  PrimFloat.sqrt (PrimFloat.add (PrimFloat.mul a a) (PrimFloat.mul b b)).

#[export] Instance float_Num : Num float := {|
  fadd := PrimFloat.add;
  fsub := PrimFloat.sub;
  fmul := PrimFloat.mul;
  fdiv := PrimFloat.div;
  flt := PrimFloat.ltb;
  is_zero := fun d => PrimFloat.eqb d PrimFloat.zero;
  of_int := float_of_Z;
  to_int := float_to_int;
  hypot := float_hypot;
  lit_1e_12 := 1e-12%float;
  lit_1e_6 := 1e-6%float;
  lit_neg_0_6 := (-0.6)%float
|}.

(** *** Exact reals *)

Definition R_ltb (a b : R) : bool := if Rlt_dec a b then true else false.
Definition R_is_zero (d : R) : bool := if Req_dec_T d 0%R then true else false.
Definition R_to_int (r : R) : pyres Z :=
  Val (if Rle_dec 0 r then Int_part r else - Int_part (- r)).
Definition R_hypot (a b : R) : R := R_sqrt.sqrt (a * a + b * b).

#[export] Instance R_Num : Num R := {|
  fadd := Rplus;
  fsub := Rminus;
  fmul := Rmult;
  fdiv := Rdiv;
  flt := R_ltb;
  is_zero := R_is_zero;
  of_int := IZR;
  to_int := R_to_int;
  hypot := R_hypot;
  lit_1e_12 := (/ 1000000000000)%R;
  lit_1e_6 := (/ 1000000)%R;
  lit_neg_0_6 := (- (6 / 10))%R
|}.

(** ** Geometry: the ray-casting test *)

Section Geometry.
Context {F : Type} `{Num F}.

Definition Point : Type := (F * F)%type.

(** The body of [for i in range(n)] in [point_in_polygon], over the
    remaining indices [idxs]; [j] is the index of the previous vertex and
    [inside] the parity so far.  The [and] of the source is lazy: the
    quotient is evaluated only when the edge straddles the height [y]. *)
Fixpoint crossing_loop (x y : F) (poly : list Point) (idxs : list nat)
         (j : nat) (inside : bool) : pyres bool :=
  match idxs with
  | [] => Val inside
  | i :: rest =>
      let d := (of_int 0, of_int 0) in
      let '(xi, yi) := nth i poly d in
      let '(xj, yj) := nth j poly d in
      if negb (Bool.eqb (yi >? y)%num (yj >? y)%num) then
        let den := (yj - yi + lit_1e_12)%num in
        if is_zero den then Exc ZeroDivisionError
        else
          let intersect := (x <? (xj - xi) * (y - yi) / den + xi)%num in
          crossing_loop x y poly rest i (if intersect then negb inside else inside)
      else crossing_loop x y poly rest i inside
  end.

(** [point_in_polygon(self, x, y, poly)]; [self] is not used. *)
Definition point_in_polygon (x y : F) (poly : list Point) : pyres bool :=
  match poly with
  | [] => Val true
  | _ =>
      let n := length poly in
      crossing_loop x y poly (seq 0 n) (n - 1)%nat false
  end.

End Geometry.

(** ** Animals *)

Module Animal.
Section WithNum.
Context {F : Type} `{Num F}.

Record t : Type := mk {
  id : Z;
  x : F;
  y : F;
  vx : F;
  vy : F;
  base_speed : F;
  speed_multiplier : F;
  inside : bool;
  canvas_obj : option positive
}.

(** What [__init__] draws from [random]: the heading, given by
    [math.cos(angle)] and [math.sin(angle)] of the drawn angle, and the
    base speed. *)
Record Birth : Type := {
  cos_angle : F;
  sin_angle : F;
  gait : F
}.

(** What [step] draws from [random]: the two wander terms. *)
Record Wander : Type := {
  dvx : F;
  dvy : F
}.

(** [Animal.__init__(self, aid, x, y, speed_multiplier)]. *)
Definition init (aid : Z) (x0 y0 : F) (mult : F) (b : Birth) : t :=
  {| id := aid; x := x0; y := y0;
     vx := cos_angle b; vy := sin_angle b;
     base_speed := gait b; speed_multiplier := mult;
     inside := true; canvas_obj := None |}.

Definition set_position (x1 y1 : F) (a : t) : t :=
  {| id := id a; x := x1; y := y1; vx := vx a; vy := vy a;
     base_speed := base_speed a; speed_multiplier := speed_multiplier a;
     inside := inside a; canvas_obj := canvas_obj a |}.

Definition set_velocity (vx1 vy1 : F) (a : t) : t :=
  {| id := id a; x := x a; y := y a; vx := vx1; vy := vy1;
     base_speed := base_speed a; speed_multiplier := speed_multiplier a;
     inside := inside a; canvas_obj := canvas_obj a |}.

Definition set_base_speed (v : F) (a : t) : t :=
  {| id := id a; x := x a; y := y a; vx := vx a; vy := vy a;
     base_speed := v; speed_multiplier := speed_multiplier a;
     inside := inside a; canvas_obj := canvas_obj a |}.

Definition set_speed_multiplier (v : F) (a : t) : t :=
  {| id := id a; x := x a; y := y a; vx := vx a; vy := vy a;
     base_speed := base_speed a; speed_multiplier := v;
     inside := inside a; canvas_obj := canvas_obj a |}.

Definition set_inside (v : bool) (a : t) : t :=
  {| id := id a; x := x a; y := y a; vx := vx a; vy := vy a;
     base_speed := base_speed a; speed_multiplier := speed_multiplier a;
     inside := v; canvas_obj := canvas_obj a |}.

Definition set_canvas_obj (v : option positive) (a : t) : t :=
  {| id := id a; x := x a; y := y a; vx := vx a; vy := vy a;
     base_speed := base_speed a; speed_multiplier := speed_multiplier a;
     inside := inside a; canvas_obj := v |}.

(** The speed [step] computes on its first line. *)
Definition speed (a : t) : F := (base_speed a * speed_multiplier a)%num.

(** [Animal.step(self)], with the two wander draws [w].  The norm [n] is
    at least 1e-6, so the two quotients do not raise. *)
Definition step (w : Wander) (a : t) : t :=
  let speed := speed a in
  let vx1 := (vx a + dvx w)%num in
  let vy1 := (vy a + dvy w)%num in
  let n := pymax lit_1e_6 (hypot vx1 vy1) in
  let vx2 := (vx1 / n * speed)%num in
  let vy2 := (vy1 / n * speed)%num in
  set_position (x a + vx2)%num (y a + vy2)%num (set_velocity vx2 vy2 a).

End WithNum.
Arguments t F : clear implicits.
Arguments Birth F : clear implicits.
Arguments Wander F : clear implicits.
End Animal.

(** ** Alerts, dialogs and the rendering of integers *)

(** [str(z)] for an [int], as an f-string prints it. *)
Definition dec (z : Z) : string := NilZero.string_of_int (Z.to_int z).

Inductive AlertKind : Type := LEFT | RE_ENTERED.

(** A row of [self.alerts]: [(timestamp, id, x, y, msg)].  The message is
    determined by the other components and the kind of crossing, so the row
    keeps the kind and [message] renders the text. *)
Record Alert : Type := {
  timestamp : string;
  animal_id : Z;
  at_x : Z;
  at_y : Z;
  kind : AlertKind
}.

Definition message (al : Alert) : string :=
  ("Animal #" ++ dec (animal_id al) ++
   match kind al with
   | LEFT => " LEFT fence at ("
   | RE_ENTERED => " re-entered fence at ("
   end ++ dec (at_x al) ++ "," ++ dec (at_y al) ++ ")")%string.

(** A call of [tkinter.messagebox]. *)
Inductive Dialog : Type :=
| showwarning (title text : string)
| showinfo (title text : string)
| showerror (title text : string).

(** ** The application state *)

Module VirtualFenceApp.
Section WithNum.
Context {F : Type} `{Num F}.

(** The attributes of [VirtualFenceApp] the engine reads and writes.
    - [canvas_w] ... [status_outside]: the values of the Tk variables of the
      same names ([draw_mode] included);
    - [cv_width], [cv_height]: the configured size of the canvas widget,
      what [canvas.cget] returns; [cv_next_item]: the id the next created
      canvas item receives (item ids are positive, hence truthy);
    - [animals]: the dict [self.animals] as its items in insertion order;
    - [job]: whether [self._job] holds a pending timer;
    - [log_lines]: the texts passed to [self.log], oldest first (the clock
      prefix the widget adds is left out);
    - [shown]: the message boxes requested, oldest first. *)
Record t : Type := mk {
  canvas_w : Z;
  canvas_h : Z;
  tick_ms : Z;
  init_animal_count : Z;
  speed_mul : F;
  animal_size : Z;
  fence_color : string;
  draw_mode : bool;
  status_inside : Z;
  status_outside : Z;
  cv_width : Z;
  cv_height : Z;
  cv_next_item : positive;
  animals : list (Z * Animal.t F);
  next_animal_id : Z;
  sim_running : bool;
  job : bool;
  alerts : list Alert;
  polygon_points : list (F * F);
  fence_polygon_id : option positive;
  log_lines : list string;
  shown : list Dialog
}.

Definition set_canvas_w (v : Z) (s : t) : t :=
  {| canvas_w := v;
     canvas_h := canvas_h s;
     tick_ms := tick_ms s;
     init_animal_count := init_animal_count s;
     speed_mul := speed_mul s;
     animal_size := animal_size s;
     fence_color := fence_color s;
     draw_mode := draw_mode s;
     status_inside := status_inside s;
     status_outside := status_outside s;
     cv_width := cv_width s;
     cv_height := cv_height s;
     cv_next_item := cv_next_item s;
     animals := animals s;
     next_animal_id := next_animal_id s;
     sim_running := sim_running s;
     job := job s;
     alerts := alerts s;
     polygon_points := polygon_points s;
     fence_polygon_id := fence_polygon_id s;
     log_lines := log_lines s;
     shown := shown s |}.

Definition set_canvas_h (v : Z) (s : t) : t :=
  {| canvas_w := canvas_w s;
     canvas_h := v;
     tick_ms := tick_ms s;
     init_animal_count := init_animal_count s;
     speed_mul := speed_mul s;
     animal_size := animal_size s;
     fence_color := fence_color s;
     draw_mode := draw_mode s;
     status_inside := status_inside s;
     status_outside := status_outside s;
     cv_width := cv_width s;
     cv_height := cv_height s;
     cv_next_item := cv_next_item s;
     animals := animals s;
     next_animal_id := next_animal_id s;
     sim_running := sim_running s;
     job := job s;
     alerts := alerts s;
     polygon_points := polygon_points s;
     fence_polygon_id := fence_polygon_id s;
     log_lines := log_lines s;
     shown := shown s |}.

Definition set_tick_ms (v : Z) (s : t) : t :=
  {| canvas_w := canvas_w s;
     canvas_h := canvas_h s;
     tick_ms := v;
     init_animal_count := init_animal_count s;
     speed_mul := speed_mul s;
     animal_size := animal_size s;
     fence_color := fence_color s;
     draw_mode := draw_mode s;
     status_inside := status_inside s;
     status_outside := status_outside s;
     cv_width := cv_width s;
     cv_height := cv_height s;
     cv_next_item := cv_next_item s;
     animals := animals s;
     next_animal_id := next_animal_id s;
     sim_running := sim_running s;
     job := job s;
     alerts := alerts s;
     polygon_points := polygon_points s;
     fence_polygon_id := fence_polygon_id s;
     log_lines := log_lines s;
     shown := shown s |}.

Definition set_init_animal_count (v : Z) (s : t) : t :=
  {| canvas_w := canvas_w s;
     canvas_h := canvas_h s;
     tick_ms := tick_ms s;
     init_animal_count := v;
     speed_mul := speed_mul s;
     animal_size := animal_size s;
     fence_color := fence_color s;
     draw_mode := draw_mode s;
     status_inside := status_inside s;
     status_outside := status_outside s;
     cv_width := cv_width s;
     cv_height := cv_height s;
     cv_next_item := cv_next_item s;
     animals := animals s;
     next_animal_id := next_animal_id s;
     sim_running := sim_running s;
     job := job s;
     alerts := alerts s;
     polygon_points := polygon_points s;
     fence_polygon_id := fence_polygon_id s;
     log_lines := log_lines s;
     shown := shown s |}.

Definition set_speed_mul (v : F) (s : t) : t :=
  {| canvas_w := canvas_w s;
     canvas_h := canvas_h s;
     tick_ms := tick_ms s;
     init_animal_count := init_animal_count s;
     speed_mul := v;
     animal_size := animal_size s;
     fence_color := fence_color s;
     draw_mode := draw_mode s;
     status_inside := status_inside s;
     status_outside := status_outside s;
     cv_width := cv_width s;
     cv_height := cv_height s;
     cv_next_item := cv_next_item s;
     animals := animals s;
     next_animal_id := next_animal_id s;
     sim_running := sim_running s;
     job := job s;
     alerts := alerts s;
     polygon_points := polygon_points s;
     fence_polygon_id := fence_polygon_id s;
     log_lines := log_lines s;
     shown := shown s |}.

Definition set_animal_size (v : Z) (s : t) : t :=
  {| canvas_w := canvas_w s;
     canvas_h := canvas_h s;
     tick_ms := tick_ms s;
     init_animal_count := init_animal_count s;
     speed_mul := speed_mul s;
     animal_size := v;
     fence_color := fence_color s;
     draw_mode := draw_mode s;
     status_inside := status_inside s;
     status_outside := status_outside s;
     cv_width := cv_width s;
     cv_height := cv_height s;
     cv_next_item := cv_next_item s;
     animals := animals s;
     next_animal_id := next_animal_id s;
     sim_running := sim_running s;
     job := job s;
     alerts := alerts s;
     polygon_points := polygon_points s;
     fence_polygon_id := fence_polygon_id s;
     log_lines := log_lines s;
     shown := shown s |}.

Definition set_fence_color (v : string) (s : t) : t :=
  {| canvas_w := canvas_w s;
     canvas_h := canvas_h s;
     tick_ms := tick_ms s;
     init_animal_count := init_animal_count s;
     speed_mul := speed_mul s;
     animal_size := animal_size s;
     fence_color := v;
     draw_mode := draw_mode s;
     status_inside := status_inside s;
     status_outside := status_outside s;
     cv_width := cv_width s;
     cv_height := cv_height s;
     cv_next_item := cv_next_item s;
     animals := animals s;
     next_animal_id := next_animal_id s;
     sim_running := sim_running s;
     job := job s;
     alerts := alerts s;
     polygon_points := polygon_points s;
     fence_polygon_id := fence_polygon_id s;
     log_lines := log_lines s;
     shown := shown s |}.

Definition set_draw_mode (v : bool) (s : t) : t :=
  {| canvas_w := canvas_w s;
     canvas_h := canvas_h s;
     tick_ms := tick_ms s;
     init_animal_count := init_animal_count s;
     speed_mul := speed_mul s;
     animal_size := animal_size s;
     fence_color := fence_color s;
     draw_mode := v;
     status_inside := status_inside s;
     status_outside := status_outside s;
     cv_width := cv_width s;
     cv_height := cv_height s;
     cv_next_item := cv_next_item s;
     animals := animals s;
     next_animal_id := next_animal_id s;
     sim_running := sim_running s;
     job := job s;
     alerts := alerts s;
     polygon_points := polygon_points s;
     fence_polygon_id := fence_polygon_id s;
     log_lines := log_lines s;
     shown := shown s |}.

Definition set_status_inside (v : Z) (s : t) : t :=
  {| canvas_w := canvas_w s;
     canvas_h := canvas_h s;
     tick_ms := tick_ms s;
     init_animal_count := init_animal_count s;
     speed_mul := speed_mul s;
     animal_size := animal_size s;
     fence_color := fence_color s;
     draw_mode := draw_mode s;
     status_inside := v;
     status_outside := status_outside s;
     cv_width := cv_width s;
     cv_height := cv_height s;
     cv_next_item := cv_next_item s;
     animals := animals s;
     next_animal_id := next_animal_id s;
     sim_running := sim_running s;
     job := job s;
     alerts := alerts s;
     polygon_points := polygon_points s;
     fence_polygon_id := fence_polygon_id s;
     log_lines := log_lines s;
     shown := shown s |}.

Definition set_status_outside (v : Z) (s : t) : t :=
  {| canvas_w := canvas_w s;
     canvas_h := canvas_h s;
     tick_ms := tick_ms s;
     init_animal_count := init_animal_count s;
     speed_mul := speed_mul s;
     animal_size := animal_size s;
     fence_color := fence_color s;
     draw_mode := draw_mode s;
     status_inside := status_inside s;
     status_outside := v;
     cv_width := cv_width s;
     cv_height := cv_height s;
     cv_next_item := cv_next_item s;
     animals := animals s;
     next_animal_id := next_animal_id s;
     sim_running := sim_running s;
     job := job s;
     alerts := alerts s;
     polygon_points := polygon_points s;
     fence_polygon_id := fence_polygon_id s;
     log_lines := log_lines s;
     shown := shown s |}.

Definition set_cv_width (v : Z) (s : t) : t :=
  {| canvas_w := canvas_w s;
     canvas_h := canvas_h s;
     tick_ms := tick_ms s;
     init_animal_count := init_animal_count s;
     speed_mul := speed_mul s;
     animal_size := animal_size s;
     fence_color := fence_color s;
     draw_mode := draw_mode s;
     status_inside := status_inside s;
     status_outside := status_outside s;
     cv_width := v;
     cv_height := cv_height s;
     cv_next_item := cv_next_item s;
     animals := animals s;
     next_animal_id := next_animal_id s;
     sim_running := sim_running s;
     job := job s;
     alerts := alerts s;
     polygon_points := polygon_points s;
     fence_polygon_id := fence_polygon_id s;
     log_lines := log_lines s;
     shown := shown s |}.

Definition set_cv_height (v : Z) (s : t) : t :=
  {| canvas_w := canvas_w s;
     canvas_h := canvas_h s;
     tick_ms := tick_ms s;
     init_animal_count := init_animal_count s;
     speed_mul := speed_mul s;
     animal_size := animal_size s;
     fence_color := fence_color s;
     draw_mode := draw_mode s;
     status_inside := status_inside s;
     status_outside := status_outside s;
     cv_width := cv_width s;
     cv_height := v;
     cv_next_item := cv_next_item s;
     animals := animals s;
     next_animal_id := next_animal_id s;
     sim_running := sim_running s;
     job := job s;
     alerts := alerts s;
     polygon_points := polygon_points s;
     fence_polygon_id := fence_polygon_id s;
     log_lines := log_lines s;
     shown := shown s |}.

Definition set_cv_next_item (v : positive) (s : t) : t :=
  {| canvas_w := canvas_w s;
     canvas_h := canvas_h s;
     tick_ms := tick_ms s;
     init_animal_count := init_animal_count s;
     speed_mul := speed_mul s;
     animal_size := animal_size s;
     fence_color := fence_color s;
     draw_mode := draw_mode s;
     status_inside := status_inside s;
     status_outside := status_outside s;
     cv_width := cv_width s;
     cv_height := cv_height s;
     cv_next_item := v;
     animals := animals s;
     next_animal_id := next_animal_id s;
     sim_running := sim_running s;
     job := job s;
     alerts := alerts s;
     polygon_points := polygon_points s;
     fence_polygon_id := fence_polygon_id s;
     log_lines := log_lines s;
     shown := shown s |}.

Definition set_animals (v : list (Z * Animal.t F)) (s : t) : t :=
  {| canvas_w := canvas_w s;
     canvas_h := canvas_h s;
     tick_ms := tick_ms s;
     init_animal_count := init_animal_count s;
     speed_mul := speed_mul s;
     animal_size := animal_size s;
     fence_color := fence_color s;
     draw_mode := draw_mode s;
     status_inside := status_inside s;
     status_outside := status_outside s;
     cv_width := cv_width s;
     cv_height := cv_height s;
     cv_next_item := cv_next_item s;
     animals := v;
     next_animal_id := next_animal_id s;
     sim_running := sim_running s;
     job := job s;
     alerts := alerts s;
     polygon_points := polygon_points s;
     fence_polygon_id := fence_polygon_id s;
     log_lines := log_lines s;
     shown := shown s |}.

Definition set_next_animal_id (v : Z) (s : t) : t :=
  {| canvas_w := canvas_w s;
     canvas_h := canvas_h s;
     tick_ms := tick_ms s;
     init_animal_count := init_animal_count s;
     speed_mul := speed_mul s;
     animal_size := animal_size s;
     fence_color := fence_color s;
     draw_mode := draw_mode s;
     status_inside := status_inside s;
     status_outside := status_outside s;
     cv_width := cv_width s;
     cv_height := cv_height s;
     cv_next_item := cv_next_item s;
     animals := animals s;
     next_animal_id := v;
     sim_running := sim_running s;
     job := job s;
     alerts := alerts s;
     polygon_points := polygon_points s;
     fence_polygon_id := fence_polygon_id s;
     log_lines := log_lines s;
     shown := shown s |}.

Definition set_sim_running (v : bool) (s : t) : t :=
  {| canvas_w := canvas_w s;
     canvas_h := canvas_h s;
     tick_ms := tick_ms s;
     init_animal_count := init_animal_count s;
     speed_mul := speed_mul s;
     animal_size := animal_size s;
     fence_color := fence_color s;
     draw_mode := draw_mode s;
     status_inside := status_inside s;
     status_outside := status_outside s;
     cv_width := cv_width s;
     cv_height := cv_height s;
     cv_next_item := cv_next_item s;
     animals := animals s;
     next_animal_id := next_animal_id s;
     sim_running := v;
     job := job s;
     alerts := alerts s;
     polygon_points := polygon_points s;
     fence_polygon_id := fence_polygon_id s;
     log_lines := log_lines s;
     shown := shown s |}.

Definition set_job (v : bool) (s : t) : t :=
  {| canvas_w := canvas_w s;
     canvas_h := canvas_h s;
     tick_ms := tick_ms s;
     init_animal_count := init_animal_count s;
     speed_mul := speed_mul s;
     animal_size := animal_size s;
     fence_color := fence_color s;
     draw_mode := draw_mode s;
     status_inside := status_inside s;
     status_outside := status_outside s;
     cv_width := cv_width s;
     cv_height := cv_height s;
     cv_next_item := cv_next_item s;
     animals := animals s;
     next_animal_id := next_animal_id s;
     sim_running := sim_running s;
     job := v;
     alerts := alerts s;
     polygon_points := polygon_points s;
     fence_polygon_id := fence_polygon_id s;
     log_lines := log_lines s;
     shown := shown s |}.

Definition set_alerts (v : list Alert) (s : t) : t :=
  {| canvas_w := canvas_w s;
     canvas_h := canvas_h s;
     tick_ms := tick_ms s;
     init_animal_count := init_animal_count s;
     speed_mul := speed_mul s;
     animal_size := animal_size s;
     fence_color := fence_color s;
     draw_mode := draw_mode s;
     status_inside := status_inside s;
     status_outside := status_outside s;
     cv_width := cv_width s;
     cv_height := cv_height s;
     cv_next_item := cv_next_item s;
     animals := animals s;
     next_animal_id := next_animal_id s;
     sim_running := sim_running s;
     job := job s;
     alerts := v;
     polygon_points := polygon_points s;
     fence_polygon_id := fence_polygon_id s;
     log_lines := log_lines s;
     shown := shown s |}.

Definition set_polygon_points (v : list (F * F)) (s : t) : t :=
  {| canvas_w := canvas_w s;
     canvas_h := canvas_h s;
     tick_ms := tick_ms s;
     init_animal_count := init_animal_count s;
     speed_mul := speed_mul s;
     animal_size := animal_size s;
     fence_color := fence_color s;
     draw_mode := draw_mode s;
     status_inside := status_inside s;
     status_outside := status_outside s;
     cv_width := cv_width s;
     cv_height := cv_height s;
     cv_next_item := cv_next_item s;
     animals := animals s;
     next_animal_id := next_animal_id s;
     sim_running := sim_running s;
     job := job s;
     alerts := alerts s;
     polygon_points := v;
     fence_polygon_id := fence_polygon_id s;
     log_lines := log_lines s;
     shown := shown s |}.

Definition set_fence_polygon_id (v : option positive) (s : t) : t :=
  {| canvas_w := canvas_w s;
     canvas_h := canvas_h s;
     tick_ms := tick_ms s;
     init_animal_count := init_animal_count s;
     speed_mul := speed_mul s;
     animal_size := animal_size s;
     fence_color := fence_color s;
     draw_mode := draw_mode s;
     status_inside := status_inside s;
     status_outside := status_outside s;
     cv_width := cv_width s;
     cv_height := cv_height s;
     cv_next_item := cv_next_item s;
     animals := animals s;
     next_animal_id := next_animal_id s;
     sim_running := sim_running s;
     job := job s;
     alerts := alerts s;
     polygon_points := polygon_points s;
     fence_polygon_id := v;
     log_lines := log_lines s;
     shown := shown s |}.

Definition set_log_lines (v : list string) (s : t) : t :=
  {| canvas_w := canvas_w s;
     canvas_h := canvas_h s;
     tick_ms := tick_ms s;
     init_animal_count := init_animal_count s;
     speed_mul := speed_mul s;
     animal_size := animal_size s;
     fence_color := fence_color s;
     draw_mode := draw_mode s;
     status_inside := status_inside s;
     status_outside := status_outside s;
     cv_width := cv_width s;
     cv_height := cv_height s;
     cv_next_item := cv_next_item s;
     animals := animals s;
     next_animal_id := next_animal_id s;
     sim_running := sim_running s;
     job := job s;
     alerts := alerts s;
     polygon_points := polygon_points s;
     fence_polygon_id := fence_polygon_id s;
     log_lines := v;
     shown := shown s |}.

Definition set_shown (v : list Dialog) (s : t) : t :=
  {| canvas_w := canvas_w s;
     canvas_h := canvas_h s;
     tick_ms := tick_ms s;
     init_animal_count := init_animal_count s;
     speed_mul := speed_mul s;
     animal_size := animal_size s;
     fence_color := fence_color s;
     draw_mode := draw_mode s;
     status_inside := status_inside s;
     status_outside := status_outside s;
     cv_width := cv_width s;
     cv_height := cv_height s;
     cv_next_item := cv_next_item s;
     animals := animals s;
     next_animal_id := next_animal_id s;
     sim_running := sim_running s;
     job := job s;
     alerts := alerts s;
     polygon_points := polygon_points s;
     fence_polygon_id := fence_polygon_id s;
     log_lines := log_lines s;
     shown := v |}.

(** *** Results of callbacks *)

(** How a callback ends: normally, or by an exception that leaves it (Tk
    reports it and goes on).  Either way the state reached is kept. *)
Inductive Res : Type :=
| Ok (s : t)
| Raise (e : Exn) (s : t).

Definition bind (r : Res) (k : t -> Res) : Res :=
  match r with
  | Ok s => k s
  | Raise e s => Raise e s
  end.

Definition final (r : Res) : t :=
  match r with
  | Ok s => s
  | Raise _ s => s
  end.

Definition completed (r : Res) : bool :=
  match r with
  | Ok _ => true
  | Raise _ _ => false
  end.

(** *** The dict of animals *)

Definition Registry : Type := list (Z * Animal.t F).

Definition keys (d : Registry) : list Z := map fst d.
Definition values (d : Registry) : list (Animal.t F) := map snd d.

Definition dict_get (k : Z) (d : Registry) : option (Animal.t F) :=
  option_map snd (find (fun e => fst e =? k) d).

(** [d[k] = a]: in place when the key is present, appended otherwise. *)
Definition dict_set (k : Z) (a : Animal.t F) (d : Registry) : Registry :=
  if existsb (fun e => fst e =? k) d
  then map (fun e => if fst e =? k then (k, a) else e) d
  else d ++ [(k, a)].

Definition dict_pop (k : Z) (d : Registry) : Registry :=
  filter (fun e => negb (fst e =? k)) d.

(** *** Widgets *)

(** [self.log(text)]. *)
Definition log (text : string) (s : t) : t :=
  set_log_lines (log_lines s ++ [text]) s.

(** [messagebox.show...(title, text)]. *)
Definition show (d : Dialog) (s : t) : t :=
  set_shown (shown s ++ [d]) s.

(** [self.canvas.create_...(...)]: the id of the new item. *)
Definition create_item (s : t) : positive * t :=
  (cv_next_item s, set_cv_next_item (Pos.succ (cv_next_item s)) s).

(** *** Drawing the fence *)

Definition toggle_draw_mode (s : t) : t :=
  let val := negb (draw_mode s) in
  let s := set_draw_mode val s in
  if val then
    log "Drawing mode enabled: click on canvas to add polygon vertices."
        (set_polygon_points [] s)
  else
    log "Drawing mode disabled. Use Finish & Activate to set fence." s.

(** [canvas_click(self, event)] with [event.x = ex] and [event.y = ey]. *)
Definition canvas_click (ex ey : Z) (s : t) : t :=
  if draw_mode s then
    let s := set_polygon_points (polygon_points s ++ [(of_int ex, of_int ey)]) s in
    let s := snd (create_item s) in
    let s := if (1 <? length (polygon_points s))%nat then snd (create_item s) else s in
    log ("Added polygon point (" ++ dec ex ++ "," ++ dec ey ++ ")") s
  else s.

Definition finish_polygon (s : t) : t :=
  if (length (polygon_points s) <? 3)%nat then
    show (showwarning "Invalid polygon" "A polygon needs at least 3 points.") s
  else
    let s := match fence_polygon_id s with
             | Some _ => set_fence_polygon_id None s
             | None => s
             end in
    let '(item, s) := create_item s in
    let s := set_fence_polygon_id (Some item) s in
    let s := set_draw_mode false s in
    log ("Fence activated with " ++ dec (Z.of_nat (length (polygon_points s)))
           ++ " vertices.") s.

Definition clear_fence (s : t) : t :=
  let s := match fence_polygon_id s with
           | Some _ => set_fence_polygon_id None s
           | None => s
           end in
  log "Fence cleared." (set_polygon_points [] s).

(** *** Counting *)

Definition _update_counts (s : t) : t :=
  let inside := Z.of_nat (length (filter Animal.inside (values (animals s)))) in
  let outside := Z.max 0 (Z.of_nat (length (animals s)) - inside) in
  set_status_outside outside (set_status_inside inside s).

(** *** Spawning and removing animals *)

(** The draws of one spawn: the two position draws and those of
    [Animal.__init__]. *)
Record Spawn : Type := {
  draw_x : F;
  draw_y : F;
  birth : Animal.Birth F
}.

Definition _create_animal (x y : F) (b : Animal.Birth F) (s : t) : Res :=
  let aid := next_animal_id s in
  let s := set_next_animal_id (aid + 1) s in
  let a := Animal.init aid x y (speed_mul s) b in
  let '(item, s) := create_item s in
  let a := Animal.set_canvas_obj (Some item) a in
  let s := set_animals (dict_set aid a (animals s)) s in
  match to_int (Animal.x a) with
  | Exc e => Raise e s
  | Val ix =>
      match to_int (Animal.y a) with
      | Exc e => Raise e s
      | Val iy =>
          let s := log ("Added animal #" ++ dec aid ++ " at (" ++ dec ix ++ ","
                          ++ dec iy ++ ")") s in
          Ok (_update_counts s)
      end
  end.

(** [draw_x d] is [random.uniform(40, max(40, w-40))], [draw_y d] likewise. *)
Definition add_random_animal (d : Spawn) (s : t) : Res :=
  _create_animal (draw_x d) (draw_y d) (birth d) s.

(** [draw_x d] and [draw_y d] are the two draws [random.uniform(-10,10)]. *)
Definition add_animal_at_center (d : Spawn) (s : t) : Res :=
  let w := cv_width s in
  let h := cv_height s in
  _create_animal (of_int w / of_int 2 + draw_x d)%num
                 (of_int h / of_int 2 + draw_y d)%num (birth d) s.

Definition remove_last_animal (s : t) : t :=
  match keys (animals s) with
  | [] => s
  | k :: ks =>
      let last := fold_left Z.max ks k in
      let s := set_animals (dict_pop last (animals s)) s in
      _update_counts (log ("Removed animal #" ++ dec last) s)
  end.

(** [for _ in range(n): self.add_random_animal()], the [i]-th pass drawing
    [draws i]; an exception leaves the loop. *)
Fixpoint add_random_animals (draws : nat -> Spawn) (i n : nat) (s : t) : Res :=
  match n with
  | O => Ok s
  | S n' => bind (add_random_animal (draws i) s) (add_random_animals draws (S i) n')
  end.

Definition reset_animals (draws : nat -> Spawn) (s : t) : Res :=
  let s := set_next_animal_id 1 (set_animals [] s) in
  bind (add_random_animals draws 0 (Z.to_nat (Z.max 0 (init_animal_count s))) s)
       (fun s => Ok (_update_counts (log "Reset animals to initial count." s))).

(** *** The tick *)

(** What one tick reads from outside, per animal id: the wander draws of
    its [step] and the wall-clock text [time.strftime] returns when its
    alert is written. *)
Record Tick : Type := {
  wander : Z -> Animal.Wander F;
  clock : Z -> string
}.

(** The four clamps of [_tick_loop], for a canvas of [w] by [h]. *)
Definition bounce (w h : Z) (a : Animal.t F) : Animal.t F :=
  let a := if (Animal.x a <? of_int 5)%num
           then Animal.set_velocity (Animal.vx a * lit_neg_0_6)%num (Animal.vy a)
                  (Animal.set_position (of_int 5) (Animal.y a) a)
           else a in
  let a := if (Animal.x a >? of_int (w - 5))%num
           then Animal.set_velocity (Animal.vx a * lit_neg_0_6)%num (Animal.vy a)
                  (Animal.set_position (of_int (w - 5)) (Animal.y a) a)
           else a in
  let a := if (Animal.y a <? of_int 5)%num
           then Animal.set_velocity (Animal.vx a) (Animal.vy a * lit_neg_0_6)%num
                  (Animal.set_position (Animal.x a) (of_int 5) a)
           else a in
  let a := if (Animal.y a >? of_int (h - 5))%num
           then Animal.set_velocity (Animal.vx a) (Animal.vy a * lit_neg_0_6)%num
                  (Animal.set_position (Animal.x a) (of_int (h - 5)) a)
           else a in
  a.

Definition _get_active_polygon_points (s : t) : option (list (F * F)) :=
  match fence_polygon_id s, polygon_points s with
  | Some _, _ :: _ => Some (polygon_points s)
  | _, _ => None
  end.

(** The containment of the position [(x, y)], as [_tick_loop] computes it
    into [inside]: true unless a polygon is chosen and the ray-casting test
    fails on it. *)
Definition classify (s : t) (x y : F) : pyres bool :=
  if match fence_polygon_id s with Some _ => true | None => false end
     || (3 <=? length (polygon_points s))%nat
  then
    let poly :=
      match polygon_points s, fence_polygon_id s with
      | _ :: _, None => Some (polygon_points s)
      | _, _ => _get_active_polygon_points s
      end in
    match poly with
    | Some (p :: l) => point_in_polygon x y (p :: l)
    | _ => Val true
    end
  else Val true.

(** The alert row for animal [a] at wall-clock text [now]; [int(a.x)] and
    [int(a.y)] may raise. *)
Definition alert_row (now : string) (k : AlertKind) (a : Animal.t F) : pyres Alert :=
  match to_int (Animal.x a) with
  | Exc e => Exc e
  | Val ix =>
      match to_int (Animal.y a) with
      | Exc e => Exc e
      | Val iy =>
          Val {| timestamp := now; animal_id := Animal.id a;
                 at_x := ix; at_y := iy; kind := k |}
      end
  end.

(** What processing one animal leaves: the animal as mutated so far, the
    alert rows appended, and the exception that ended it, if any. *)
Record Processed : Type := {
  animal : Animal.t F;
  emitted : list Alert;
  raised : option Exn
}.

(** The two [if]s that close the loop body of [_tick_loop]: the crossing
    detector, fed the containment [inside] just computed.  The flag is
    written before the message is formatted. *)
Definition crossing (now : string) (inside : bool) (a : Animal.t F) : Processed :=
  let p :=
    if negb inside && Animal.inside a then
      let a := Animal.set_inside false a in
      match alert_row now LEFT a with
      | Exc e => {| animal := a; emitted := []; raised := Some e |}
      | Val row => {| animal := a; emitted := [row]; raised := None |}
      end
    else {| animal := a; emitted := []; raised := None |} in
  match raised p with
  | Some _ => p
  | None =>
      let a := animal p in
      if inside && negb (Animal.inside a) then
        let a := Animal.set_inside true a in
        match alert_row now RE_ENTERED a with
        | Exc e => {| animal := a; emitted := emitted p; raised := Some e |}
        | Val row => {| animal := a; emitted := emitted p ++ [row]; raised := None |}
        end
      else p
  end.

(** The loop body of [_tick_loop] for one animal: step, bounce, classify,
    detect.  It reads the canvas size and the fence from [s], which the
    loop does not change. *)
Definition process (s : t) (env : Tick) (a0 : Animal.t F) : Processed :=
  let a := bounce (cv_width s) (cv_height s)
             (Animal.step (wander env (Animal.id a0)) a0) in
  match classify s (Animal.x a) (Animal.y a) with
  | Exc e => {| animal := a; emitted := []; raised := Some e |}
  | Val inside => crossing (clock env (Animal.id a0)) inside a
  end.

(** The loop over [list(self.animals.values())]: the animals as mutated in
    place, the rows appended in order, and the exception that ended the
    loop, if any (the animals after the failing one are untouched). *)
Fixpoint process_all (s : t) (env : Tick) (d : Registry)
  : Registry * list Alert * option Exn :=
  match d with
  | [] => ([], [], None)
  | (k, a) :: rest =>
      let p := process s env a in
      match raised p with
      | Some e => ((k, animal p) :: rest, emitted p, Some e)
      | None =>
          let '(rest', rows, r) := process_all s env rest in
          ((k, animal p) :: rest', emitted p ++ rows, r)
      end
  end.

(** What accompanies each appended row: the log line and, on leaving, the
    popup handed to [self.after]. *)
Definition announce (s : t) (row : Alert) : t :=
  let s := set_alerts (alerts s ++ [row]) s in
  let s := log (message row) s in
  match kind row with
  | LEFT => show (showwarning "ALERT" (message row)) s
  | RE_ENTERED => s
  end.

Definition _tick_loop (env : Tick) (s : t) : Res :=
  let '(d, rows, r) := process_all s env (animals s) in
  let s := fold_left announce rows (set_animals d s) in
  match r with
  | Some e => Raise e s
  | None =>
      let s := _update_counts s in
      Ok (if sim_running s then set_job true s else s)
  end.

(** [env] feeds the tick that [start_simulation] runs at once. *)
Definition start_simulation (env : Tick) (s : t) : Res :=
  if sim_running s then Ok s
  else
    let s := set_sim_running true s in
    let s := set_animals
               (map (fun e => (fst e, Animal.set_speed_multiplier (speed_mul s) (snd e)))
                    (animals s)) s in
    _tick_loop env s.

Definition stop_simulation (s : t) : t :=
  if negb (sim_running s) then s
  else
    let s := set_sim_running false s in
    if job s then set_job false s else s.

(** *** Saving and loading *)

(** The JSON document: every key may be missing. *)
Record Cfg : Type := {
  cfg_canvas_w : option Z;
  cfg_canvas_h : option Z;
  cfg_tick_ms : option Z;
  cfg_init_animal_count : option Z;
  cfg_speed_mul : option F;
  cfg_animal_size : option Z;
  cfg_fence_color : option string;
  cfg_polygon_points : option (list (F * F));
  cfg_animals : option (list (Z * F * F * F * F))
}.

(** [cfg.get(key, default)]. *)
Definition get {A : Type} (field : option A) (default : A) : A :=
  match field with
  | Some v => v
  | None => default
  end.

(** The dict [save_config] builds. *)
Definition config (s : t) : Cfg :=
  {| cfg_canvas_w := Some (cv_width s);
     cfg_canvas_h := Some (cv_height s);
     cfg_tick_ms := Some (tick_ms s);
     cfg_init_animal_count := Some (init_animal_count s);
     cfg_speed_mul := Some (speed_mul s);
     cfg_animal_size := Some (animal_size s);
     cfg_fence_color := Some (fence_color s);
     cfg_polygon_points := Some (polygon_points s);
     cfg_animals :=
       Some (map (fun a => (Animal.id a, Animal.x a, Animal.y a,
                            Animal.base_speed a, Animal.speed_multiplier a))
                 (values (animals s))) |}.

(** [save_config], the file dialog answering [fpath] (empty when
    cancelled): the document written, if any, and the state.  The write is
    taken to succeed. *)
Definition save_config (fpath : string) (s : t) : option Cfg * t :=
  match fpath with
  | EmptyString => (None, s)
  | _ => (Some (config s), show (showinfo "Save" ("Config saved to " ++ fpath)) s)
  end.

(** The body of [for entry in cfg.get("animals", [])], with the draws [b]
    of the animal it creates; [except Exception: continue] swallows what
    [_create_animal] raises, keeping what it had written. *)
Definition load_entry (b : Animal.Birth F) (entry : Z * F * F * F * F) (s : t) : t :=
  let '(aid, x, y, base, mult) := entry in
  match _create_animal x y b s with
  | Raise _ s => s
  | Ok s =>
      let k := next_animal_id s - 1 in
      match dict_get k (animals s) with
      | None => s
      | Some new =>
          let new := Animal.set_base_speed base new in
          let new := Animal.set_speed_multiplier mult new in
          set_animals (dict_set k new (animals s)) s
      end
  end.

Fixpoint load_entries (births : nat -> Animal.Birth F) (i : nat)
         (entries : list (Z * F * F * F * F)) (s : t) : t :=
  match entries with
  | [] => s
  | entry :: rest => load_entries births (S i) rest (load_entry (births i) entry s)
  end.

(** The three parts of the [try] block of [load_config], in order: the
    canvas size and the Tk variables; the fence; the animals. *)
Definition load_settings (cfg : Cfg) (s : t) : t :=
  let s := set_cv_height (get (cfg_canvas_h cfg) (canvas_h s))
             (set_cv_width (get (cfg_canvas_w cfg) (canvas_w s)) s) in
  let s := set_canvas_w (get (cfg_canvas_w cfg) (canvas_w s)) s in
  let s := set_canvas_h (get (cfg_canvas_h cfg) (canvas_h s)) s in
  let s := set_tick_ms (get (cfg_tick_ms cfg) (tick_ms s)) s in
  let s := set_init_animal_count
             (get (cfg_init_animal_count cfg) (init_animal_count s)) s in
  let s := set_speed_mul (get (cfg_speed_mul cfg) (speed_mul s)) s in
  let s := set_animal_size (get (cfg_animal_size cfg) (animal_size s)) s in
  set_fence_color (get (cfg_fence_color cfg) (fence_color s)) s.

Definition load_fence (cfg : Cfg) (s : t) : t :=
  let s := set_polygon_points (get (cfg_polygon_points cfg) []) s in
  let s := match fence_polygon_id s with
           | Some _ => set_fence_polygon_id None s
           | None => s
           end in
  if (3 <=? length (polygon_points s))%nat
  then let '(item, s) := create_item s in
       set_fence_polygon_id (Some item) s
  else s.

Definition load_animals (births : nat -> Animal.Birth F) (cfg : Cfg) (s : t) : t :=
  let s := set_next_animal_id 1 (set_animals [] s) in
  load_entries births 0 (get (cfg_animals cfg) []) s.

(** [load_config], the dialog answering [fpath]; [file] is what opening and
    parsing it gives: the document, or the text of the exception. *)
Definition load_config (fpath : string) (file : string + Cfg)
           (births : nat -> Animal.Birth F) (s : t) : t :=
  match fpath with
  | EmptyString => s
  | _ =>
      match file with
      | inl err => show (showerror "Load error" err) s
      | inr cfg =>
          let s := load_settings cfg s in
          let s := load_fence cfg s in
          let s := load_animals births cfg s in
          _update_counts (log ("Config loaded from " ++ fpath) s)
      end
  end.

(** *** Start-up *)

(** The attributes as [__init__] sets them, before the first animals. *)
Definition fresh : t :=
  {| canvas_w := 900; canvas_h := 600; tick_ms := 100; init_animal_count := 8;
     speed_mul := of_int 1; animal_size := 6; fence_color := "#2563eb";
     draw_mode := false; status_inside := 0; status_outside := 0;
     cv_width := 900; cv_height := 600; cv_next_item := 1%positive;
     animals := []; next_animal_id := 1; sim_running := false; job := false;
     alerts := []; polygon_points := []; fence_polygon_id := None;
     log_lines := []; shown := [] |}.

(** [VirtualFenceApp.__init__]: the first animals are spawned at random. *)
Definition init (draws : nat -> Spawn) : Res :=
  add_random_animals draws 0 (Z.to_nat (init_animal_count fresh)) fresh.

End WithNum.
Arguments t F : clear implicits.
Arguments Res F : clear implicits.
Arguments Registry F : clear implicits.
Arguments Spawn F : clear implicits.
Arguments Tick F : clear implicits.
Arguments Processed F : clear implicits.
Arguments Cfg F : clear implicits.
End VirtualFenceApp.

(** * Properties *)

Import VirtualFenceApp.

(** ** The containment predicate *)

(** The square fence of the specification's worked example. *)
Definition square : list (float * float) :=
  [(0, 0); (10, 0); (10, 10); (0, 10)]%float.

(** C1. For the square fence (0,0),(10,0),(10,10),(0,10), evaluated in
    binary64 as the program does, the containment predicate returns true for
    the point (5,5), false for (15,5) and false for (5,-0.001). *)
Theorem point_in_polygon_square :
  point_in_polygon 5%float 5%float square = Val true /\
  point_in_polygon 15%float 5%float square = Val false /\
  point_in_polygon 5%float (-0.001)%float square = Val false.
Proof. repeat split; vm_compute; reflexivity. Qed.

(** Reading the comparisons of the real instance. *)
Lemma R_ltb_true (a b : R) : (a < b)%R -> R_ltb a b = true.
Proof. intro; unfold R_ltb; destruct (Rlt_dec a b); [reflexivity | contradiction]. Qed.

Lemma R_ltb_false (a b : R) : (b <= a)%R -> R_ltb a b = false.
Proof. intro; unfold R_ltb; destruct (Rlt_dec a b); [lra | reflexivity]. Qed.

Lemma R_is_zero_false (d : R) : d <> 0%R -> R_is_zero d = false.
Proof. intro; unfold R_is_zero; destruct (Req_dec_T d 0); [contradiction | reflexivity]. Qed.

(** C10. On a polygon of exactly one vertex the predicate returns false
    for every point, whatever the number type: the single edge joins the
    vertex to itself, its two ends are on the same side of the ray, and the
    parity stays even. *)
Theorem point_in_polygon_single_vertex {F : Type} `{Num F} (x y : F) (v : F * F) :
  point_in_polygon x y [v] = Val false.
Proof.
  destruct v as [xv yv].
  unfold point_in_polygon; simpl.
  rewrite Bool.eqb_reflx; reflexivity.
Qed.

(** ** Sample data for the binary64 evaluations *)

(** A heading due east with unit gait, no wander, and a fixed clock. *)
Definition east : Animal.Birth float :=
  {| Animal.cos_angle := 1%float; Animal.sin_angle := 0%float; Animal.gait := 1%float |}.

Definition spawn_at (x y : float) : Spawn float :=
  {| draw_x := x; draw_y := y; birth := east |}.

Definition calm : Tick float :=
  {| wander := fun _ => {| Animal.dvx := 0%float; Animal.dvy := 0%float |};
     clock := fun _ => "2024-01-01 12:00:00"%string |}.

(** Four clicks in drawing mode on a fresh application: the square as a
    draft, [finish_polygon] never called. *)
Definition drafted : t float :=
  canvas_click 0 10 (canvas_click 10 10 (canvas_click 10 0 (canvas_click 0 0
    (toggle_draw_mode fresh)))).

(** ** Fence activation *)

(** The two states agree on every attribute but the message boxes shown. *)
Definition same_but_shown {F : Type} (s s' : t F) : Prop :=
  s' = set_shown (shown s') s.

(** C9. Finish/activate with fewer than 3 collected vertices is reported
    (one warning box) and changes nothing else: the active fence, the
    collected vertices and every other attribute stay as they were. *)
Theorem finish_polygon_rejects_small {F : Type} `{Num F} (s : t F) :
  (length (polygon_points s) < 3)%nat ->
  same_but_shown s (finish_polygon s) /\
  shown (finish_polygon s) =
    shown s ++ [showwarning "Invalid polygon" "A polygon needs at least 3 points."] /\
  fence_polygon_id (finish_polygon s) = fence_polygon_id s /\
  polygon_points (finish_polygon s) = polygon_points s.
Proof.
  intros Hlen. unfold finish_polygon, same_but_shown.
  apply Nat.ltb_lt in Hlen. rewrite Hlen.
  repeat split.
Qed.

Lemma finish_polygon_rejects_small_witness :
  same_but_shown (canvas_click 3 4 (toggle_draw_mode (@fresh float _)))
                 (finish_polygon (canvas_click 3 4 (toggle_draw_mode fresh))) /\
  fence_polygon_id (finish_polygon (canvas_click 3 4 (toggle_draw_mode (@fresh float _))))
    = None.
Proof.
  pose proof (finish_polygon_rejects_small
                (canvas_click 3 4 (toggle_draw_mode (@fresh float _)))) as P.
  assert (L : (length (polygon_points
             (canvas_click 3 4 (toggle_draw_mode (@fresh float _)))) < 3)%nat)
    by (simpl; lia).
  destruct (P L) as (P1 & _ & P3 & _).
  split; [exact P1 | rewrite P3; reflexivity].
Defined.

(** ** Classification without a fence *)

(** C3, as the code has it.  With no fence item on the canvas, the
    classification is true when fewer than 3 draft vertices are collected;
    from 3 draft vertices on it is the ray-casting test on the draft. *)
Theorem classify_without_fence {F : Type} `{Num F} (s : t F) (x y : F) :
  fence_polygon_id s = None ->
  classify s x y =
    if (3 <=? length (polygon_points s))%nat
    then point_in_polygon x y (polygon_points s)
    else Val true.
Proof.
  intros Hnone. unfold classify, _get_active_polygon_points.
  rewrite Hnone; simpl.
  destruct (polygon_points s) as [|p l]; [reflexivity|].
  destruct (3 <=? length (p :: l))%nat; reflexivity.
Qed.

Lemma classify_without_fence_witness :
  classify (canvas_click 3 4 (toggle_draw_mode (@fresh float _))) 15%float 5%float
    = Val true.
Proof.
  exact (classify_without_fence
           (canvas_click 3 4 (toggle_draw_mode (@fresh float _)))
           15%float 5%float eq_refl).
Defined.

(** C3 fails as stated: with the square only drafted (no fence was ever
    finalized) the point (15,5) is classified outside, and the tick that
    follows raises a LEFT alert for an animal spawned there. *)
Lemma draft_polygon_is_consulted :
  fence_polygon_id drafted = None /\
  classify drafted 15%float 5%float = Val false /\
  exists s1 s2,
    add_random_animal (spawn_at 15 5) drafted = Ok s1 /\
    _tick_loop calm s1 = Ok s2 /\
    map kind (alerts s2) = [LEFT].
Proof.
  split; [reflexivity|]. split; [vm_compute; reflexivity|].
  eexists; eexists. split; [vm_compute; reflexivity|].
  split; vm_compute; reflexivity.
Qed.

(** ** Aggregate counts *)

(** The number of registered animals whose stored state is inside, and the
    number of registered animals. *)
Definition inside_count {F : Type} (s : t F) : Z :=
  Z.of_nat (length (filter Animal.inside (values (animals s)))).

Definition total_entities {F : Type} (s : t F) : Z :=
  Z.of_nat (length (animals s)).

Definition counts_exposed {F : Type} (s : t F) : Prop :=
  status_inside s = inside_count s /\
  status_inside s + status_outside s = total_entities s.

(** A tick, an addition or a removal that ran to its end: [s'] is the
    state it leaves from [s]. *)
Inductive counted_step {F : Type} `{Num F} : t F -> t F -> Prop :=
| after_tick (env : Tick F) (s s' : t F) :
    _tick_loop env s = Ok s' -> counted_step s s'
| after_add_random (d : Spawn F) (s s' : t F) :
    add_random_animal d s = Ok s' -> counted_step s s'
| after_add_at_center (d : Spawn F) (s s' : t F) :
    add_animal_at_center d s = Ok s' -> counted_step s s'
| after_remove_last (s : t F) :
    animals s <> [] -> counted_step s (remove_last_animal s).

Lemma inside_count_le_total {F : Type} (s : t F) :
  inside_count s <= total_entities s.
Proof.
  unfold inside_count, total_entities, values.
  apply Nat2Z.inj_le.
  rewrite <- (length_map snd (animals s)).
  apply filter_length_le.
Qed.

Lemma update_counts_exposed {F : Type} `{Num F} (s : t F) :
  counts_exposed (_update_counts s).
Proof.
  pose proof (inside_count_le_total s) as Hle.
  unfold counts_exposed, _update_counts, inside_count, total_entities in *.
  simpl. split; [reflexivity | lia].
Qed.

Lemma counts_exposed_set_job {F : Type} (b : bool) (s : t F) :
  counts_exposed s -> counts_exposed (set_job b s).
Proof. intros Hc; exact Hc. Qed.

Lemma create_animal_counts {F : Type} `{Num F} (x y : F) (b : Animal.Birth F)
      (s s' : t F) :
  _create_animal x y b s = Ok s' -> counts_exposed s'.
Proof.
  unfold _create_animal; simpl.
  destruct (to_int x); [|discriminate].
  destruct (to_int y); [|discriminate].
  intros E; injection E as <-. apply update_counts_exposed.
Qed.

Lemma tick_counts {F : Type} `{Num F} (env : Tick F) (s s' : t F) :
  _tick_loop env s = Ok s' -> counts_exposed s'.
Proof.
  unfold _tick_loop.
  destruct (process_all s env (animals s)) as [[d rows] [e|]]; [discriminate|].
  intros E; injection E as <-.
  match goal with
  | |- counts_exposed (if ?c then _ else _) => destruct c
  end; [apply counts_exposed_set_job|]; apply update_counts_exposed.
Qed.



(** ** Renormalization in [step] *)

(** The magnitude of the velocity, and the norm of the velocity once the
    wander draws are added (what [step] passes to [max]). *)

Definition magnitude {F : Type} `{Num F} (a : Animal.t F) : F :=
  hypot (Animal.vx a) (Animal.vy a).

Definition wandered_norm {F : Type} `{Num F} (w : Animal.Wander F) (a : Animal.t F) : F :=
  hypot (Animal.vx a + Animal.dvx w)%num (Animal.vy a + Animal.dvy w)%num.

(** Over the reals the norm is homogeneous, and [max] is [Rmax]. *)
Lemma R_hypot_scale (a b k : R) :
  (0 <= k)%R -> R_hypot (a * k) (b * k) = (R_hypot a b * k)%R.
Proof.
  intros Hk. unfold R_hypot.
  replace (a * k * (a * k) + b * k * (b * k))%R with ((a * a + b * b) * (k * k))%R by ring.
  rewrite R_sqrt.sqrt_mult_alt by nra.
  rewrite (R_sqrt.sqrt_square k Hk). reflexivity.
Qed.

Lemma pymax_R (a b : R) : pymax a b = Rmax a b.
Proof.
  unfold pymax; cbn. unfold R_ltb, Rmax.
  destruct (Rlt_dec a b), (Rle_dec a b); try reflexivity; lra.
Qed.

Lemma step_magnitude_general (a : Animal.t R) (w : Animal.Wander R) :
  (0 <= Animal.speed a)%R ->
  magnitude (Animal.step w a) =
    (wandered_norm w a / pymax lit_1e_6 (wandered_norm w a) * Animal.speed a)%R.
Proof.
  intros Hs. unfold magnitude, Animal.step, wandered_norm.
  cbn -[R_hypot pymax Animal.speed].
  set (h := R_hypot (Animal.vx a + Animal.dvx w) (Animal.vy a + Animal.dvy w)).
  rewrite pymax_R.
  assert (Hn : (0 < Rmax (/ 1000000) h)%R).
  { apply Rlt_le_trans with (/ 1000000)%R; [lra | apply Rmax_l]. }
  set (n := Rmax (/ 1000000) h) in *.
  replace ((Animal.vx a + Animal.dvx w) / n * Animal.speed a)%R
    with ((Animal.vx a + Animal.dvx w) * (Animal.speed a / n))%R by (field; lra).
  replace ((Animal.vy a + Animal.dvy w) / n * Animal.speed a)%R
    with ((Animal.vy a + Animal.dvy w) * (Animal.speed a / n))%R by (field; lra).
  rewrite R_hypot_scale.
  - fold h. field; lra.
  - apply Rmult_le_pos; [exact Hs | left; apply Rinv_0_lt_compat; exact Hn].
Qed.

(** C6, as the code has it, over the exact reals, for a non-negative
    speed [base_speed * speed_multiplier].  When the norm after wander is at
    least the floor 1e-6, the magnitude after [step] is exactly the speed.
    When it is below the floor, the division is by 1e-6 and not by the
    norm, and the magnitude is the speed scaled by norm / 1e-6. *)
Theorem step_magnitude_R (a : Animal.t R) (w : Animal.Wander R) :
  (0 <= Animal.speed a)%R ->
  ((lit_1e_6 <= wandered_norm w a)%R ->
     magnitude (Animal.step w a) = Animal.speed a) /\
  ((wandered_norm w a < lit_1e_6)%R ->
     magnitude (Animal.step w a) = (wandered_norm w a / lit_1e_6 * Animal.speed a)%R).
Proof.
  intros Hs. rewrite (step_magnitude_general a w Hs), pymax_R.
  cbn -[wandered_norm Animal.speed].
  split; intros Hh.
  - rewrite Rmax_right by exact Hh. field. lra.
  - rewrite Rmax_left by lra. reflexivity.
Qed.

(** An animal moving east at speed 1/4, and the wander draw that cancels
    its velocity. *)
Definition slow : Animal.t R :=
  {| Animal.id := 1; Animal.x := 100%R; Animal.y := 100%R;
     Animal.vx := (1 / 4)%R; Animal.vy := 0%R;
     Animal.base_speed := 1%R; Animal.speed_multiplier := (1 / 4)%R;
     Animal.inside := true; Animal.canvas_obj := None |}.

Definition back : Animal.Wander R :=
  {| Animal.dvx := (- (1 / 4))%R; Animal.dvy := 0%R |}.

Lemma wandered_norm_slow_back : wandered_norm back slow = 0%R.
Proof.
  unfold wandered_norm; cbn. unfold R_hypot.
  replace ((1 / 4 + - (1 / 4)) * (1 / 4 + - (1 / 4)) + (0 + 0) * (0 + 0))%R with 0%R by field.
  apply R_sqrt.sqrt_0.
Qed.

(** C6 fails as stated in the degenerate case: the wander cancels the
    velocity, the floor divides zero by 1e-6, and the magnitude after
    [step] is 0 while the speed is 1/4. *)
Lemma step_magnitude_degenerate :
  (wandered_norm back slow < lit_1e_6)%R /\
  magnitude (Animal.step back slow) = 0%R /\
  (Animal.base_speed slow * Animal.speed_multiplier slow)%R = (1 / 4)%R /\
  magnitude (Animal.step back slow) <> (Animal.base_speed slow * Animal.speed_multiplier slow)%R.
Proof.
  assert (Hs : (0 <= Animal.speed slow)%R) by (unfold Animal.speed; cbn; lra).
  assert (Hlt : (wandered_norm back slow < lit_1e_6)%R)
    by (rewrite wandered_norm_slow_back; cbn; lra).
  assert (E0 : magnitude (Animal.step back slow) = 0%R).
  { rewrite (step_magnitude_general slow back Hs), wandered_norm_slow_back.
    unfold Rdiv. ring. }
  split; [exact Hlt|]. split; [exact E0|].
  split; [cbn; field|]. rewrite E0. cbn. lra.
Qed.

Lemma step_magnitude_R_witness :
  magnitude (Animal.step {| Animal.dvx := 0%R; Animal.dvy := 0%R |} slow) = (1 / 4)%R.
Proof.
  pose proof (step_magnitude_R slow {| Animal.dvx := 0%R; Animal.dvy := 0%R |}) as P.
  assert (Hs : (0 <= Animal.speed slow)%R) by (unfold Animal.speed; cbn; lra).
  destruct (P Hs) as [Pn _].
  rewrite Pn.
  - unfold Animal.speed; cbn. field.
  - unfold wandered_norm; cbn. unfold R_hypot.
    replace ((1 / 4 + 0) * (1 / 4 + 0) + (0 + 0) * (0 + 0))%R with ((1 / 4) * (1 / 4))%R by field.
    rewrite R_sqrt.sqrt_square by lra. lra.
Defined.

(** The same degenerate step evaluated in binary64. *)
Definition slow64 : Animal.t float :=
  {| Animal.id := 1; Animal.x := 100%float; Animal.y := 100%float;
     Animal.vx := 0.25%float; Animal.vy := 0%float;
     Animal.base_speed := 1%float; Animal.speed_multiplier := 0.25%float;
     Animal.inside := true; Animal.canvas_obj := None |}.

Lemma step_magnitude_degenerate_binary64 :
  magnitude (Animal.step {| Animal.dvx := (-0.25)%float; Animal.dvy := 0%float |} slow64)
    = 0%float /\
  Animal.speed slow64 = 0.25%float.
Proof. split; vm_compute; reflexivity. Qed.

(** ** The speed multiplier *)

(** The result of a callback, with [f] applied to the state it leaves. *)
Definition map_res {F : Type} (f : t F -> t F) (r : Res F) : Res F :=
  match r with
  | Ok s => Ok (f s)
  | Raise e s => Raise e (f s)
  end.

(** The loop body reads the canvas size and the fence only. *)
Lemma process_all_reads {F : Type} `{Num F} (s1 s2 : t F) (env : Tick F)
      (d : Registry F) :
  cv_width s1 = cv_width s2 -> cv_height s1 = cv_height s2 ->
  fence_polygon_id s1 = fence_polygon_id s2 ->
  polygon_points s1 = polygon_points s2 ->
  process_all s1 env d = process_all s2 env d.
Proof.
  intros Hw Hh Hf Hp.
  induction d as [|[k a] rest IH]; [reflexivity|].
  simpl. unfold process, classify, _get_active_polygon_points.
  rewrite Hw, Hh, Hf, Hp, IH. reflexivity.
Qed.

Lemma announce_set_speed_mul {F : Type} (m : F) (rows : list Alert) (s : t F) :
  fold_left announce rows (set_speed_mul m s) =
  set_speed_mul m (fold_left announce rows s).
Proof.
  revert s. induction rows as [|row rows IH]; intros s; [reflexivity|].
  simpl. rewrite <- IH. f_equal.
  unfold announce. destruct (kind row); reflexivity.
Qed.

Lemma tick_ignores_speed_mul {F : Type} `{Num F} (m : F) (env : Tick F) (s : t F) :
  _tick_loop env (set_speed_mul m s) = map_res (set_speed_mul m) (_tick_loop env s).
Proof.
  unfold _tick_loop.
  rewrite (process_all_reads (set_speed_mul m s) s env (animals (set_speed_mul m s)))
    by reflexivity.
  change (animals (set_speed_mul m s)) with (animals s).
  destruct (process_all s env (animals s)) as [[d rows] r].
  change (set_animals d (set_speed_mul m s)) with (set_speed_mul m (set_animals d s)).
  rewrite announce_set_speed_mul.
  destruct r as [e|]; [reflexivity|].
  simpl. destruct (sim_running (fold_left announce rows (set_animals d s))); reflexivity.
Qed.

(** What [start_simulation] hands to its first tick: the simulation marked
    running and the global multiplier copied into every animal. *)
Definition started {F : Type} (s : t F) : t F :=
  set_animals
    (map (fun e => (fst e, Animal.set_speed_multiplier (speed_mul s) (snd e)))
         (animals s))
    (set_sim_running true s).

Lemma started_speeds {F : Type} `{Num F} (s : t F) :
  Forall (fun a => Animal.speed a = (Animal.base_speed a * speed_mul s)%num)
         (values (animals (started s))).
Proof.
  unfold started, values; simpl.
  induction (animals s) as [|e l IH]; simpl; constructor; [reflexivity | exact IH].
Qed.

(** C8, as the code has it.  A tick computes each animal's speed from the
    multiplier stored in the animal, so writing the global multiplier
    between two ticks changes nothing in the next tick but the global value
    itself.  The global value is copied into the animals when a stopped
    simulation is started, and the tick run by that start computes every
    speed as base speed times the new value. *)
Theorem speed_mul_applies_at_start {F : Type} `{Num F} (m : F) (env : Tick F)
        (s : t F) :
  _tick_loop env (set_speed_mul m s) = map_res (set_speed_mul m) (_tick_loop env s) /\
  (sim_running s = false ->
   start_simulation env (set_speed_mul m s) = _tick_loop env (started (set_speed_mul m s)) /\
   Forall (fun a => Animal.speed a = (Animal.base_speed a * m)%num)
          (values (animals (started (set_speed_mul m s))))).
Proof.
  split; [apply tick_ignores_speed_mul|].
  intros Hstopped. split.
  - unfold start_simulation.
    change (sim_running (set_speed_mul m s)) with (sim_running s).
    rewrite Hstopped. reflexivity.
  - exact (started_speeds (set_speed_mul m s)).
Qed.

(** One animal spawned at (100,100) while the global multiplier is 1. *)
Definition one_animal : t float :=
  final (add_random_animal (spawn_at 100 100) fresh).

Lemma speed_mul_applies_at_start_witness :
  map (fun a => Animal.x a) (values (animals (final
    (start_simulation calm (set_speed_mul 2%float one_animal))))) = [102%float].
Proof.
  pose proof (speed_mul_applies_at_start 2%float calm one_animal) as [_ P].
  destruct (P eq_refl) as [P1 _].
  rewrite P1. vm_compute. reflexivity.
Defined.

(** C8 fails as stated: the animal was created under multiplier 1; after the
    global multiplier is set to 2 the next tick still computes its speed as
    1 (base speed 1 times the stored 1) and moves it from x = 100 to 101. *)
Lemma speed_mul_change_ignored_by_tick :
  exists a s',
    animals (set_speed_mul 2%float one_animal) = [(1, a)] /\
    speed_mul (set_speed_mul 2%float one_animal) = 2%float /\
    Animal.base_speed a = 1%float /\
    Animal.speed a = 1%float /\
    Animal.speed a <> (Animal.base_speed a * 2)%float /\
    _tick_loop calm (set_speed_mul 2%float one_animal) = Ok s' /\
    map (fun e => (Animal.x (snd e), Animal.vx (snd e))) (animals s')
      = [(101%float, 1%float)].
Proof.
  eexists; eexists.
  split; [vm_compute; reflexivity|].
  split; [reflexivity|].
  split; [reflexivity|].
  split; [vm_compute; reflexivity|].
  split.
  - intros E.
    apply (f_equal (fun v => PrimFloat.eqb v 1%float)) in E.
    vm_compute in E. discriminate E.
  - split; vm_compute; reflexivity.
Qed.

(** ** The registry and its ids *)

Definition ids {F : Type} (s : t F) : list Z :=
  map Animal.id (values (animals s)).

(** What every reachable registry satisfies: each animal is stored under
    its own id, the keys are distinct, and all lie below the counter. *)
Definition registry_ok {F : Type} (s : t F) : Prop :=
  Forall (fun e => Animal.id (snd e) = fst e) (animals s) /\
  Forall (fun k => k < next_animal_id s) (keys (animals s)) /\
  NoDup (keys (animals s)).

Lemma ids_keys {F : Type} (s : t F) :
  Forall (fun e => Animal.id (snd e) = fst e) (animals s) -> ids s = keys (animals s).
Proof.
  unfold ids, values, keys. intros Hall.
  induction Hall as [|e l He _ IH]; [reflexivity|].
  simpl. rewrite He, IH. reflexivity.
Qed.

Lemma dict_set_fresh_key {F : Type} (k : Z) (a : Animal.t F) (d : Registry F) :
  ~ In k (keys d) -> dict_set k a d = d ++ [(k, a)].
Proof.
  intros Hnot. unfold dict_set.
  replace (existsb (fun e => fst e =? k) d) with false; [reflexivity|].
  symmetry. apply Bool.not_true_is_false. intros Hex.
  apply existsb_exists in Hex. destruct Hex as [e [Hin Heq]].
  apply Z.eqb_eq in Heq. apply Hnot. subst k.
  unfold keys. apply in_map. exact Hin.
Qed.

Lemma below_not_in (n : Z) (l : list Z) :
  Forall (fun k => k < n) l -> ~ In n l.
Proof.
  intros Hall Hin. rewrite Forall_forall in Hall.
  specialize (Hall n Hin). lia.
Qed.

(** The registry and the counter as [_create_animal] leaves them, whether
    or not the log line that follows raises. *)
Lemma create_animal_registry {F : Type} `{Num F} (x y : F) (b : Animal.Birth F)
      (s : t F) :
  Forall (fun k => k < next_animal_id s) (keys (animals s)) ->
  animals (final (_create_animal x y b s)) =
    animals s ++ [(next_animal_id s,
                   Animal.set_canvas_obj (Some (cv_next_item s))
                     (Animal.init (next_animal_id s) x y (speed_mul s) b))] /\
  next_animal_id (final (_create_animal x y b s)) = next_animal_id s + 1.
Proof.
  intros Hbelow. unfold _create_animal. simpl.
  rewrite (dict_set_fresh_key _ _ _ (below_not_in _ _ Hbelow)).
  destruct (to_int x); [destruct (to_int y)|]; simpl; split; reflexivity.
Qed.

Lemma create_animal_ok {F : Type} `{Num F} (x y : F) (b : Animal.Birth F) (s : t F) :
  registry_ok s -> registry_ok (final (_create_animal x y b s)).
Proof.
  intros (Hid & Hbelow & Hnd).
  destruct (create_animal_registry x y b s Hbelow) as [Ea En].
  unfold registry_ok. rewrite Ea, En. unfold keys in *. rewrite map_app. simpl.
  repeat split.
  - apply Forall_app. split; [exact Hid|]. constructor; [reflexivity | constructor].
  - apply Forall_app. split.
    + eapply Forall_impl; [|exact Hbelow]. simpl; intros; lia.
    + constructor; [lia | constructor].
  - apply NoDup_app.
    + exact Hnd.
    + constructor; [intros []| constructor].
    + intros k Hin [<-|[]]. exact (below_not_in _ _ Hbelow Hin).
Qed.

Lemma dict_pop_incl {F : Type} (k : Z) (d : Registry F) (j : Z) :
  In j (keys (dict_pop k d)) -> In j (keys d).
Proof.
  unfold keys, dict_pop. intros Hin.
  apply in_map_iff in Hin. destruct Hin as [e [<- He]].
  apply filter_In in He. apply in_map. exact (proj1 He).
Qed.

Lemma dict_pop_NoDup {F : Type} (k : Z) (d : Registry F) :
  NoDup (keys d) -> NoDup (keys (dict_pop k d)).
Proof.
  unfold keys, dict_pop. induction d as [|e d IH]; intros Hnd; [constructor|].
  inversion Hnd as [|? ? Hnot Hrest]; subst. simpl.
  destruct (negb (fst e =? k)); simpl; [|exact (IH Hrest)].
  constructor; [|exact (IH Hrest)].
  intros Hin. apply Hnot. exact (dict_pop_incl k d _ Hin).
Qed.

Lemma remove_last_registry {F : Type} `{Num F} (s : t F) :
  next_animal_id (remove_last_animal s) = next_animal_id s /\
  forall j, In j (keys (animals (remove_last_animal s))) -> In j (keys (animals s)).
Proof.
  unfold remove_last_animal.
  destruct (keys (animals s)) as [|k ks] eqn:Ek; [rewrite Ek; tauto|].
  split; [reflexivity|]. intros j Hin.
  cbn [animals set_animals log _update_counts set_log_lines set_status_inside
       set_status_outside] in Hin.
  apply dict_pop_incl in Hin. rewrite Ek in Hin. exact Hin.
Qed.

Lemma remove_last_ok {F : Type} `{Num F} (s : t F) :
  registry_ok s -> registry_ok (remove_last_animal s).
Proof.
  intros (Hid & Hbelow & Hnd). unfold remove_last_animal.
  destruct (keys (animals s)) as [|k ks] eqn:Ek; [unfold registry_ok; rewrite Ek; auto|].
  unfold registry_ok; simpl. repeat split.
  - unfold dict_pop. rewrite Forall_forall in *. intros e He.
    apply filter_In in He. exact (Hid e (proj1 He)).
  - rewrite <- Ek in Hbelow. rewrite Forall_forall in *. intros j Hj.
    exact (Hbelow j (dict_pop_incl _ _ _ Hj)).
  - apply dict_pop_NoDup. rewrite Ek. exact Hnd.
Qed.

(** The spawn and remove operations of the interface. *)
Inductive RegistryOp (F : Type) : Type :=
| Add_random (d : Spawn F)
| Add_at_center (d : Spawn F)
| Remove_last.
Arguments Add_random {F} d.
Arguments Add_at_center {F} d.
Arguments Remove_last {F}.

(** The state an operation leaves (an addition whose log line raises has
    registered its animal all the same). *)
Definition perform {F : Type} `{Num F} (op : RegistryOp F) (s : t F) : t F :=
  match op with
  | Add_random d => final (add_random_animal d s)
  | Add_at_center d => final (add_animal_at_center d s)
  | Remove_last => remove_last_animal s
  end.

(** The states a sequence of operations goes through, the first included. *)
Fixpoint history {F : Type} `{Num F} (ops : list (RegistryOp F)) (s : t F)
  : list (t F) :=
  s :: match ops with
       | [] => []
       | op :: rest => history rest (perform op s)
       end.

Lemma fresh_ok {F : Type} `{Num F} : registry_ok (@fresh F _).
Proof. repeat split; constructor. Qed.

Lemma perform_ok {F : Type} `{Num F} (op : RegistryOp F) (s : t F) :
  registry_ok s -> registry_ok (perform op s).
Proof.
  destruct op; simpl; intros Hok;
    [apply create_animal_ok | apply create_animal_ok | apply remove_last_ok]; exact Hok.
Qed.

(** One operation never lowers the counter, and a key it adds is at least
    the counter it found. *)
Lemma perform_counter {F : Type} `{Num F} (op : RegistryOp F) (s : t F) :
  registry_ok s ->
  next_animal_id s <= next_animal_id (perform op s) /\
  forall k, In k (keys (animals (perform op s))) -> ~ In k (keys (animals s)) ->
            next_animal_id s <= k.
Proof.
  intros (Hid & Hbelow & Hnd).
  assert (Hcreate : forall x y b,
    next_animal_id s <= next_animal_id (final (_create_animal x y b s)) /\
    forall k, In k (keys (animals (final (_create_animal x y b s)))) ->
              ~ In k (keys (animals s)) -> next_animal_id s <= k).
  { intros x y b. destruct (create_animal_registry x y b s Hbelow) as [Ea En].
    rewrite Ea, En. split; [lia|]. intros k Hin Hnew.
    unfold keys in Hin. rewrite map_app in Hin. apply in_app_or in Hin.
    destruct Hin as [Hin | [<-|[]]]; [contradiction | simpl; lia]. }
  destruct op; simpl; try apply Hcreate.
  destruct (remove_last_registry s) as [En Hincl]. rewrite En. split; [lia|].
  intros k Hin Hnew. elim Hnew. exact (Hincl k Hin).
Qed.

Lemma history_reach {F : Type} `{Num F} (ops : list (RegistryOp F)) :
  forall (s : t F) (j : nat) (sj : t F),
    registry_ok s -> nth_error (history ops s) j = Some sj ->
    registry_ok sj /\ next_animal_id s <= next_animal_id sj.
Proof.
  induction ops as [|op rest IH]; intros s j sj Hok Hj.
  - destruct j as [|[|j]]; simpl in Hj; try discriminate.
    injection Hj as <-. split; [exact Hok | lia].
  - destruct j as [|j]; simpl in Hj.
    + injection Hj as <-. split; [exact Hok | lia].
    + destruct (IH (perform op s) j sj (perform_ok op s Hok) Hj) as [Hokj Hle].
      split; [exact Hokj|]. pose proof (proj1 (perform_counter op s Hok)). lia.
Qed.

Lemma history_step {F : Type} `{Num F} (ops : list (RegistryOp F)) :
  forall (s : t F) (j : nat) (sj sj' : t F),
    nth_error (history ops s) j = Some sj ->
    nth_error (history ops s) (S j) = Some sj' ->
    exists op, sj' = perform op sj.
Proof.
  induction ops as [|op rest IH]; intros s j sj sj' Hj Hj'.
  - destruct j as [|j]; simpl in Hj'; [discriminate | destruct j; discriminate].
  - destruct j as [|j].
    + simpl in Hj. injection Hj as <-. simpl in Hj'.
      destruct rest; simpl in Hj'; injection Hj' as <-; exists op; reflexivity.
    + simpl in Hj, Hj'. exact (IH (perform op s) j sj sj' Hj Hj').
Qed.

Lemma history_never_reuses {F : Type} `{Num F} (ops : list (RegistryOp F)) :
  forall (s : t F) (i j : nat) (si sj sj' : t F) (k : Z),
    registry_ok s ->
    nth_error (history ops s) i = Some si ->
    nth_error (history ops s) j = Some sj ->
    nth_error (history ops s) (S j) = Some sj' ->
    (i <= j)%nat ->
    In k (ids sj') -> ~ In k (ids sj) ->
    NoDup (ids sj') /\ forall k', In k' (ids si) -> k' < k.
Proof.
  induction ops as [|op rest IH]; intros s i j si sj sj' k Hok Hi Hj Hj' Hle Hin Hnew.
  - destruct j as [|j]; simpl in Hj'; [discriminate | destruct j; discriminate].
  - destruct i as [|i].
    + simpl in Hi. injection Hi as <-.
      destruct (history_reach (op :: rest) s j sj Hok Hj) as [Hokj Hmono].
      destruct (history_step (op :: rest) s j sj sj' Hj Hj') as [opj ->].
      pose proof (perform_ok opj sj Hokj) as Hokj'.
      rewrite (ids_keys _ (proj1 Hokj')) in *.
      rewrite (ids_keys _ (proj1 Hokj)) in Hnew.
      rewrite (ids_keys _ (proj1 Hok)).
      split; [exact (proj2 (proj2 Hokj'))|].
      intros k' Hk'.
      pose proof (proj2 (perform_counter opj sj Hokj) k Hin Hnew) as Hk.
      destruct Hok as (_ & Hbelow & _). rewrite Forall_forall in Hbelow.
      specialize (Hbelow k' Hk'). lia.
    + destruct j as [|j]; [lia|].
      simpl in Hi, Hj. change (nth_error (history (op :: rest) s) (S (S j)))
        with (nth_error (history rest (perform op s)) (S j)) in Hj'.
      apply (IH (perform op s) i j si sj sj' k (perform_ok op s Hok) Hi Hj Hj'); auto.
      lia.
Qed.


(** Two additions, a removal, an addition: the registry holds the ids
    1, then 1 and 2, then 1, then 1 and 3. *)
Definition sample_ops : list (RegistryOp float) :=
  [Add_random (spawn_at 50 50); Add_random (spawn_at 60 60); Remove_last;
   Add_random (spawn_at 70 70)].


(** [reset_animals] and [load_config] replace the registry and restart the
    numbering at 1: after a reset the ids 1 and 2 of the replaced registry
    are given again.  (The claim above is about spawn and remove.) *)
Lemma reset_animals_restarts_numbering :
  ids (nth 2 (history sample_ops fresh) fresh) = [1; 2] /\
  ids (final (reset_animals (fun _ => spawn_at 50 50)
                (nth 2 (history sample_ops fresh) fresh)))
    = [1; 2; 3; 4; 5; 6; 7; 8].
Proof. split; vm_compute; reflexivity. Qed.

(** ** Saving and loading *)

(** What the document keeps of an animal besides its id. *)
Definition traits {F : Type} (a : Animal.t F) : F * F * F * F :=
  (Animal.x a, Animal.y a, Animal.base_speed a, Animal.speed_multiplier a).

Definition entry_traits {F : Type} (entry : Z * F * F * F * F) : F * F * F * F :=
  let '(_, x, y, base, mult) := entry in (x, y, base, mult).

(** [int(...)] succeeds on both coordinates (they are finite numbers). *)
Definition convertible {F : Type} `{Num F} (x y : F) : Prop :=
  exists ix iy, to_int x = Val ix /\ to_int y = Val iy.

Definition entry_convertible {F : Type} `{Num F} (entry : Z * F * F * F * F) : Prop :=
  let '(_, x, y, _, _) := entry in convertible x y.

(** The ids [n], [n+1], ... given to [len] animals in a row. *)
Definition ids_from (n : Z) (len : nat) : list Z :=
  map (fun j => n + Z.of_nat j) (seq 0 len).

Lemma ids_from_S (n : Z) (len : nat) :
  ids_from n (S len) = n :: ids_from (n + 1) len.
Proof.
  unfold ids_from. simpl. rewrite Z.add_0_r. f_equal.
  rewrite <- seq_shift, map_map. apply map_ext. intros j. lia.
Qed.

Lemma dict_get_last {F : Type} (k : Z) (a : Animal.t F) (d : Registry F) :
  ~ In k (keys d) -> dict_get k (d ++ [(k, a)]) = Some a.
Proof.
  unfold dict_get, keys. induction d as [|e d IH]; intros Hnot; simpl.
  - rewrite Z.eqb_refl. reflexivity.
  - simpl in Hnot. destruct (Z.eqb_spec (fst e) k) as [E|_]; [tauto|].
    apply IH. tauto.
Qed.

Lemma dict_set_last {F : Type} (k : Z) (a a' : Animal.t F) (d : Registry F) :
  ~ In k (keys d) -> dict_set k a' (d ++ [(k, a)]) = d ++ [(k, a')].
Proof.
  intros Hnot. unfold dict_set.
  assert (Hex : existsb (fun e => fst e =? k) (d ++ [(k, a)]) = true).
  { apply existsb_exists. exists (k, a). split; [|apply Z.eqb_refl].
    apply in_or_app. right. left. reflexivity. }
  rewrite Hex, map_app. simpl. rewrite Z.eqb_refl. f_equal.
  clear Hex. unfold keys in Hnot. induction d as [|e d IH]; [reflexivity|].
  simpl in *. destruct (Z.eqb_spec (fst e) k) as [E|_]; [tauto|].
  f_equal. apply IH. tauto.
Qed.

Lemma create_animal_completes {F : Type} `{Num F} (x y : F) (b : Animal.Birth F)
      (s : t F) :
  convertible x y -> exists s', _create_animal x y b s = Ok s'.
Proof.
  intros (ix & iy & Ex & Ey). unfold _create_animal. simpl.
  rewrite Ex, Ey. eexists; reflexivity.
Qed.

Lemma create_animal_keeps_fence {F : Type} `{Num F} (x y : F) (b : Animal.Birth F)
      (s : t F) :
  polygon_points (final (_create_animal x y b s)) = polygon_points s.
Proof.
  unfold _create_animal. simpl.
  destruct (to_int x); [destruct (to_int y)|]; reflexivity.
Qed.

(** One entry with finite coordinates: the animal is appended under the
    next id, with the coordinates and the two speed values of the entry. *)
Lemma load_entry_appends {F : Type} `{Num F} (b : Animal.Birth F)
      (entry : Z * F * F * F * F) (s : t F) :
  Forall (fun k => k < next_animal_id s) (keys (animals s)) ->
  entry_convertible entry ->
  exists a,
    animals (load_entry b entry s) = animals s ++ [(next_animal_id s, a)] /\
    Animal.id a = next_animal_id s /\
    traits a = entry_traits entry /\
    next_animal_id (load_entry b entry s) = next_animal_id s + 1 /\
    polygon_points (load_entry b entry s) = polygon_points s.
Proof.
  destruct entry as [[[[aid x] y] base] mult]. intros Hbelow Hconv.
  simpl in Hconv. unfold load_entry.
  destruct (create_animal_completes x y b s Hconv) as [s1 E1].
  destruct (create_animal_registry x y b s Hbelow) as [Ea En].
  pose proof (create_animal_keeps_fence x y b s) as Ep.
  rewrite E1 in *. simpl in Ea, En, Ep.
  rewrite En. replace (next_animal_id s + 1 - 1) with (next_animal_id s) by lia.
  rewrite Ea.
  rewrite (dict_get_last _ _ _ (below_not_in _ _ Hbelow)).
  rewrite (dict_set_last _ _ _ _ (below_not_in _ _ Hbelow)).
  eexists. simpl. rewrite En, Ep. repeat split.
Qed.

Lemma load_entries_appends {F : Type} `{Num F} (births : nat -> Animal.Birth F)
      (entries : list (Z * F * F * F * F)) :
  forall (i : nat) (s : t F),
    Forall (fun k => k < next_animal_id s) (keys (animals s)) ->
    Forall entry_convertible entries ->
    map traits (values (animals (load_entries births i entries s))) =
      map traits (values (animals s)) ++ map entry_traits entries /\
    ids (load_entries births i entries s) =
      ids s ++ ids_from (next_animal_id s) (length entries) /\
    keys (animals (load_entries births i entries s)) =
      keys (animals s) ++ ids_from (next_animal_id s) (length entries) /\
    next_animal_id (load_entries births i entries s) =
      next_animal_id s + Z.of_nat (length entries) /\
    polygon_points (load_entries births i entries s) = polygon_points s.
Proof.
  induction entries as [|entry rest IH]; intros i s Hbelow Hconv.
  - simpl. unfold ids_from. simpl. rewrite !app_nil_r. repeat split. lia.
  - inversion Hconv as [|? ? Hc Hrest]; subst.
    destruct (load_entry_appends (births i) entry s Hbelow Hc)
      as (a & Ea & Eid & Et & En & Ep).
    assert (Hbelow' : Forall (fun k => k < next_animal_id (load_entry (births i) entry s))
                             (keys (animals (load_entry (births i) entry s)))).
    { rewrite Ea, En. unfold keys. rewrite map_app. apply Forall_app. split.
      - eapply Forall_impl; [|exact Hbelow]. simpl; intros; lia.
      - constructor; [simpl; lia | constructor]. }
    destruct (IH (S i) _ Hbelow' Hrest) as (It & Ii & Ik & In' & Ip).
    change (load_entries births i (entry :: rest) s)
      with (load_entries births (S i) rest (load_entry (births i) entry s)).
    rewrite It, Ii, Ik, In', Ip, En, Ep.
    unfold ids, values, keys in *. rewrite Ea. rewrite !map_app. simpl.
    rewrite Eid, Et, ids_from_S, <- !app_assoc. simpl.
    repeat split. lia.
Qed.

Lemma config_entries {F : Type} `{Num F} (s : t F) :
  Forall (fun a => convertible (Animal.x a) (Animal.y a)) (values (animals s)) ->
  Forall entry_convertible (get (cfg_animals (config s)) []) /\
  map entry_traits (get (cfg_animals (config s)) []) = map traits (values (animals s)) /\
  length (get (cfg_animals (config s)) []) = length (animals s).
Proof.
  intros Hconv. simpl. unfold values in *. rewrite !length_map.
  split; [|split; [|reflexivity]].
  - rewrite Forall_map. rewrite Forall_map in Hconv. rewrite Forall_map.
    eapply Forall_impl; [|exact Hconv]. intros e He; exact He.
  - rewrite !map_map. reflexivity.
Qed.

(** X1. Saving and then loading the saved document
    reproduces the fence vertex sequence and, for animals at finite
    coordinates, as many animals in the saved order with the saved
    positions, base speeds and multipliers; their ids are not the saved
    ones but 1, 2, ..., n in that order, and the counter is left at n + 1. *)
Theorem save_load_roundtrip {F : Type} `{Num F} (s s0 : t F) (fsave fload : string)
        (births : nat -> Animal.Birth F) (cfg : Cfg F) :
  fst (save_config fsave s) = Some cfg ->
  fload <> EmptyString ->
  Forall (fun a => convertible (Animal.x a) (Animal.y a)) (values (animals s)) ->
  polygon_points (load_config fload (inr cfg) births s0) = polygon_points s /\
  map traits (values (animals (load_config fload (inr cfg) births s0)))
    = map traits (values (animals s)) /\
  ids (load_config fload (inr cfg) births s0) = ids_from 1 (length (animals s)) /\
  next_animal_id (load_config fload (inr cfg) births s0)
    = Z.of_nat (length (animals s)) + 1.
Proof.
  intros Hsave Hload Hconv.
  assert (Ecfg : cfg = config s).
  { unfold save_config in Hsave. destruct fsave; simpl in Hsave; congruence. }
  subst cfg. destruct (config_entries s Hconv) as (Hc & Et & El).
  unfold load_config. destruct fload as [|c fload]; [congruence|].
  cbv zeta. unfold load_animals.
  set (base := set_next_animal_id 1 (set_animals [] (load_fence (config s) (load_settings (config s) s0)))).
  assert (Hstart : Forall (fun k => k < next_animal_id base) (keys (animals base)))
    by constructor.
  destruct (load_entries_appends births _ 0 base Hstart Hc) as (It & Ii & _ & In' & Ip).
  unfold ids, values in *.
  cbn [animals polygon_points next_animal_id _update_counts log set_log_lines
       set_status_inside set_status_outside].
  rewrite It, Ii, In', Ip, Et, El.
  assert (Ebase : polygon_points base = polygon_points s).
  { unfold base, load_fence. cbv zeta.
    cbn [polygon_points set_next_animal_id set_animals].
    match goal with |- context [if ?c then _ else _] => destruct c end;
    match goal with |- context [match ?f with Some _ => _ | None => _ end] => destruct f end;
    reflexivity. }
  rewrite Ebase. change (animals base) with (@nil (Z * Animal.t F)). change (next_animal_id base) with 1. cbn [map app]. repeat split; try reflexivity. lia.
Qed.


(** A decidable form of [convertible], to check concrete registries. *)
Definition convertibleb {F : Type} `{Num F} (x y : F) : bool :=
  match to_int x, to_int y with
  | Val _, Val _ => true
  | _, _ => false
  end.

Lemma convertibleb_sound {F : Type} `{Num F} (l : list (Animal.t F)) :
  forallb (fun a => convertibleb (Animal.x a) (Animal.y a)) l = true ->
  Forall (fun a => convertible (Animal.x a) (Animal.y a)) l.
Proof.
  intros Hall. rewrite forallb_forall in Hall. apply Forall_forall.
  intros a Ha. specialize (Hall a Ha). unfold convertibleb, convertible in *.
  destruct (to_int (Animal.x a)) as [ix|]; [|discriminate].
  destruct (to_int (Animal.y a)) as [iy|]; [|discriminate].
  exists ix, iy. split; reflexivity.
Qed.

(** The registry after [sample_ops]: two animals, with the ids 1 and 3. *)
Definition sample_state : t float :=
  nth 4 (history sample_ops fresh) fresh.

Lemma save_load_roundtrip_witness :
  ids (load_config "fence.json" (inr (config sample_state)) (fun _ => east) fresh)
    = [1; 2] /\
  map traits (values (animals
    (load_config "fence.json" (inr (config sample_state)) (fun _ => east) fresh)))
    = map traits (values (animals sample_state)).
Proof.
  assert (Hconv : Forall (fun a => convertible (Animal.x a) (Animal.y a))
                         (values (animals sample_state)))
    by (apply convertibleb_sound; vm_compute; reflexivity).
  assert (Hload : "fence.json"%string <> EmptyString) by discriminate.
  destruct (save_load_roundtrip sample_state fresh "fence.json" "fence.json"
              (fun _ => east) (config sample_state) eq_refl Hload Hconv)
    as (_ & Ht & Hi & _).
  split; [rewrite Hi; vm_compute; reflexivity | exact Ht].
Defined.

(** The ids are not the saved ones: the saved animals have the ids 1 and
    3, the loaded ones 1 and 2, and the counter is left at 3. *)
Lemma load_renumbers_ids :
  ids sample_state = [1; 3] /\
  fst (save_config "fence.json" sample_state) = Some (config sample_state) /\
  ids (load_config "fence.json" (inr (config sample_state)) (fun _ => east) sample_state)
    = [1; 2] /\
  next_animal_id
    (load_config "fence.json" (inr (config sample_state)) (fun _ => east) sample_state)
    = 3.
Proof.
  split; [vm_compute; reflexivity|]. split; [reflexivity|].
  split; vm_compute; reflexivity.
Qed.

(** Why the coordinates must be finite: for an entry at a NaN abscissa the
    log line of [_create_animal] raises [ValueError], [except] swallows it
    after the animal was registered, and the saved base speed 2 and
    multiplier 3 are not restored (the animal keeps the drawn gait 1 and the
    global multiplier 1). *)
Definition nan_document : Cfg float :=
  {| cfg_canvas_w := None; cfg_canvas_h := None; cfg_tick_ms := None;
     cfg_init_animal_count := None; cfg_speed_mul := None;
     cfg_animal_size := None; cfg_fence_color := None;
     cfg_polygon_points := None;
     cfg_animals := Some [(1, PrimFloat.nan, 5%float, 2%float, 3%float)] |}.

Lemma load_entry_at_nan :
  map (fun a => (Animal.id a, Animal.base_speed a, Animal.speed_multiplier a))
      (values (animals (load_config "fence.json" (inr nan_document) (fun _ => east) fresh)))
    = [(1, 1%float, 1%float)].
Proof. vm_compute; reflexivity. Qed.

(** ** The tick, animal by animal *)

(** The animal after its step and the bounce, and the containment the tick
    computes for it there. *)
Definition moved {F : Type} `{Num F} (s : t F) (env : Tick F) (a : Animal.t F)
  : Animal.t F :=
  bounce (cv_width s) (cv_height s) (Animal.step (wander env (Animal.id a)) a).

Definition now_inside {F : Type} `{Num F} (s : t F) (env : Tick F) (a : Animal.t F)
  : pyres bool :=
  classify s (Animal.x (moved s env a)) (Animal.y (moved s env a)).

(** The alert a change of containment calls for, if any. *)
Definition transition (stored now : bool) : list AlertKind :=
  match stored, now with
  | true, false => [LEFT]
  | false, true => [RE_ENTERED]
  | _, _ => []
  end.

Lemma moved_keeps {F : Type} `{Num F} (s : t F) (env : Tick F) (a : Animal.t F) :
  Animal.id (moved s env a) = Animal.id a /\
  Animal.inside (moved s env a) = Animal.inside a.
Proof.
  unfold moved, bounce.
  repeat match goal with
         | |- context [if ?c then _ else _] => destruct c
         end; split; reflexivity.
Qed.

Lemma alert_row_fields {F : Type} `{Num F} (now : string) (k : AlertKind)
      (a : Animal.t F) (row : Alert) :
  alert_row now k a = Val row -> kind row = k /\ animal_id row = Animal.id a.
Proof.
  unfold alert_row.
  destruct (to_int (Animal.x a)); [|discriminate].
  destruct (to_int (Animal.y a)); [|discriminate].
  intros E; injection E as <-. split; reflexivity.
Qed.

(** The detector, when it raises nothing: the stored state becomes the
    containment given, the position is untouched, and the rows appended
    are those the change of state calls for, under the animal's id. *)
Lemma crossing_completed {F : Type} `{Num F} (now : string) (b : bool)
      (a : Animal.t F) :
  raised (crossing now b a) = None ->
  Animal.inside (animal (crossing now b a)) = b /\
  Animal.id (animal (crossing now b a)) = Animal.id a /\
  Animal.x (animal (crossing now b a)) = Animal.x a /\
  Animal.y (animal (crossing now b a)) = Animal.y a /\
  map kind (emitted (crossing now b a)) = transition (Animal.inside a) b /\
  Forall (fun row => animal_id row = Animal.id a) (emitted (crossing now b a)).
Proof.
  unfold crossing.
  destruct b, (Animal.inside a) eqn:Ei; simpl; rewrite ?Ei; simpl.
  - intros _. repeat split; auto.
  - destruct (alert_row now RE_ENTERED (Animal.set_inside true a)) as [row|e] eqn:Er;
      simpl; [|discriminate].
    destruct (alert_row_fields _ _ _ _ Er) as [Ek Eid].
    intros _. rewrite Ek. repeat split; auto.
  - destruct (alert_row now LEFT (Animal.set_inside false a)) as [row|e] eqn:Er;
      simpl; [|discriminate].
    destruct (alert_row_fields _ _ _ _ Er) as [Ek Eid].
    intros _. rewrite Ek. repeat split; auto.
  - intros _. repeat split; auto.
Qed.

(** One animal processed without an exception. *)
Lemma process_completed {F : Type} `{Num F} (s : t F) (env : Tick F) (a : Animal.t F) :
  raised (process s env a) = None ->
  exists b,
    now_inside s env a = Val b /\
    Animal.inside (animal (process s env a)) = b /\
    Animal.id (animal (process s env a)) = Animal.id a /\
    Animal.x (animal (process s env a)) = Animal.x (moved s env a) /\
    Animal.y (animal (process s env a)) = Animal.y (moved s env a) /\
    map kind (emitted (process s env a)) = transition (Animal.inside a) b /\
    Forall (fun row => animal_id row = Animal.id a) (emitted (process s env a)).
Proof.
  unfold process, now_inside. fold (moved s env a).
  destruct (moved_keeps s env a) as [Eid Ein].
  destruct (classify s (Animal.x (moved s env a)) (Animal.y (moved s env a)))
    as [b|e]; [|discriminate].
  intros Hr. exists b.
  destruct (crossing_completed _ b (moved s env a) Hr) as (H1 & H2 & H3 & H4 & H5 & H6).
  rewrite Eid in *. rewrite Ein in H5. repeat split; auto.
Qed.

(** The loop, when it raises nothing: every animal was processed without
    an exception, the registry holds the processed animals under the same
    keys, and the rows are theirs in order. *)
Lemma process_all_completed {F : Type} `{Num F} (s : t F) (env : Tick F)
      (d d' : Registry F) (rows : list Alert) :
  process_all s env d = (d', rows, None) ->
  Forall (fun e => raised (process s env (snd e)) = None) d /\
  d' = map (fun e => (fst e, animal (process s env (snd e)))) d /\
  rows = concat (map (fun e => emitted (process s env (snd e))) d).
Proof.
  revert d' rows. induction d as [|[k a] rest IH]; intros d' rows E; simpl in E.
  - injection E as <- <-. repeat split. constructor.
  - destruct (raised (process s env a)) as [e|] eqn:Er; [discriminate|].
    destruct (process_all s env rest) as [[rest' rows'] r] eqn:Erest.
    injection E as <- <- ->.
    destruct (IH rest' rows' eq_refl) as (Hall & -> & ->).
    simpl. repeat split. constructor; [exact Er | exact Hall].
Qed.

Lemma alerts_fold_announce {F : Type} (rows : list Alert) (s : t F) :
  alerts (fold_left announce rows s) = alerts s ++ rows /\
  animals (fold_left announce rows s) = animals s /\
  polygon_points (fold_left announce rows s) = polygon_points s /\
  fence_polygon_id (fold_left announce rows s) = fence_polygon_id s /\
  cv_width (fold_left announce rows s) = cv_width s /\
  cv_height (fold_left announce rows s) = cv_height s /\
  next_animal_id (fold_left announce rows s) = next_animal_id s /\
  sim_running (fold_left announce rows s) = sim_running s.
Proof.
  revert s. induction rows as [|row rows IH]; intros s; simpl.
  - rewrite app_nil_r. repeat split.
  - destruct (IH (announce s row)) as (H1 & H2 & H3 & H4 & H5 & H6 & H7 & H8).
    rewrite H1, H2, H3, H4, H5, H6, H7, H8.
    unfold announce. destruct (kind row); simpl; rewrite <- app_assoc; repeat split.
Qed.

(** A completed tick, read off the state it leaves. *)
Lemma tick_completed {F : Type} `{Num F} (env : Tick F) (s s' : t F) :
  _tick_loop env s = Ok s' ->
  Forall (fun e => raised (process s env (snd e)) = None) (animals s) /\
  animals s' = map (fun e => (fst e, animal (process s env (snd e)))) (animals s) /\
  alerts s' = alerts s ++ concat (map (fun e => emitted (process s env (snd e))) (animals s)) /\
  polygon_points s' = polygon_points s /\
  fence_polygon_id s' = fence_polygon_id s /\
  cv_width s' = cv_width s /\ cv_height s' = cv_height s /\
  next_animal_id s' = next_animal_id s.
Proof.
  unfold _tick_loop.
  destruct (process_all s env (animals s)) as [[d rows] r] eqn:Ep.
  destruct r as [e|]; [discriminate|].
  destruct (process_all_completed s env _ _ _ Ep) as (Hall & -> & ->).
  intros E; injection E as <-.
  match goal with
  | |- context [fold_left announce ?rows ?base] =>
      destruct (alerts_fold_announce rows base) as (H1 & H2 & H3 & H4 & H5 & H6 & H7 & _)
  end.
  match goal with
  | |- context [if ?c then _ else _] => destruct c
  end; simpl; rewrite H1, H2, H3, H4, H5, H6, H7; repeat split; exact Hall.
Qed.

(** ** Edge-triggered alerts over a run of ticks *)

(** The rows of [rows] that are about the animal with id [i]. *)
Definition rows_of (i : Z) (rows : list Alert) : list Alert :=
  filter (fun row => animal_id row =? i) rows.

(** The alerts a sequence of containments calls for, from a stored state. *)
Fixpoint transitions (stored : bool) (bs : list bool) : list AlertKind :=
  match bs with
  | [] => []
  | b :: rest => transition stored b ++ transitions b rest
  end.

(** A run of completed ticks from [s] to [s'], one per element of [envs],
    with the containment [bs] the ticks compute for the animal of id [i],
    and the rows [rows] they append. *)
Inductive observed {F : Type} `{Num F} (i : Z)
  : t F -> list (Tick F) -> list bool -> t F -> Prop :=
| observed_nil (s : t F) : observed i s [] [] s
| observed_tick (s s1 s' : t F) (env : Tick F) (envs : list (Tick F))
                (a : Animal.t F) (b : bool) (bs : list bool) :
    _tick_loop env s = Ok s1 ->
    In a (values (animals s)) -> Animal.id a = i ->
    now_inside s env a = Val b ->
    observed i s1 envs bs s' ->
    observed i s (env :: envs) (b :: bs) s'.

Lemma rows_of_app (i : Z) (l1 l2 : list Alert) :
  rows_of i (l1 ++ l2) = rows_of i l1 ++ rows_of i l2.
Proof. unfold rows_of. apply filter_app. Qed.

Lemma rows_of_own (i : Z) (rows : list Alert) :
  Forall (fun row => animal_id row = i) rows -> rows_of i rows = rows.
Proof.
  unfold rows_of. induction 1 as [|row rows Hrow _ IH]; [reflexivity|].
  simpl. rewrite Hrow, Z.eqb_refl, IH. reflexivity.
Qed.

Lemma rows_of_other (i j : Z) (rows : list Alert) :
  i <> j -> Forall (fun row => animal_id row = j) rows -> rows_of i rows = [].
Proof.
  unfold rows_of. intros Hne. induction 1 as [|row rows Hrow _ IH]; [reflexivity|].
  simpl. rewrite Hrow, IH.
  destruct (Z.eqb_spec j i); [congruence | reflexivity].
Qed.

(** Among animals of distinct ids, the rows of a completed loop that are
    about one of them are the rows its own processing appended. *)
Lemma rows_of_loop {F : Type} `{Num F} (s : t F) (env : Tick F) (a : Animal.t F) :
  forall l : list (Animal.t F),
    NoDup (map Animal.id l) -> In a l ->
    Forall (fun a0 => raised (process s env a0) = None) l ->
    rows_of (Animal.id a) (concat (map (fun a0 => emitted (process s env a0)) l))
      = emitted (process s env a).
Proof.
  induction l as [|a0 l IH]; intros Hnd Hin Hall; [destruct Hin|].
  inversion Hnd as [|? ? Hnot Hnd']; subst.
  inversion Hall as [|? ? Hr Hall']; subst.
  simpl. rewrite rows_of_app.
  destruct (process_completed s env a0 Hr) as (b0 & _ & _ & _ & _ & _ & _ & Hown).
  destruct Hin as [<-|Hin].
  - rewrite (rows_of_own _ _ Hown).
    assert (Hrest : rows_of (Animal.id a0)
              (concat (map (fun a1 => emitted (process s env a1)) l)) = []).
    { clear IH Hall Hnd. induction l as [|a1 l IHl]; [reflexivity|].
      inversion Hall' as [|? ? Hr1 Hall1]; subst.
      inversion Hnd' as [|? ? _ Hnd1]; subst.
      simpl. rewrite rows_of_app.
      destruct (process_completed s env a1 Hr1) as (b1 & _ & _ & _ & _ & _ & _ & Hown1).
      rewrite (rows_of_other (Animal.id a0) (Animal.id a1) _).
      - apply IHl; auto. intros Hin0. apply Hnot. right. exact Hin0.
      - intros E. apply Hnot. left. symmetry. exact E.
      - exact Hown1. }
    rewrite Hrest, app_nil_r. reflexivity.
  - rewrite (rows_of_other (Animal.id a) (Animal.id a0) _).
    + simpl. apply IH; auto.
    + intros E. apply Hnot. rewrite <- E. apply in_map. exact Hin.
    + exact Hown.
Qed.

Lemma same_id_same_animal {F : Type} (l : list (Animal.t F)) (a a' : Animal.t F) :
  NoDup (map Animal.id l) -> In a l -> In a' l -> Animal.id a = Animal.id a' -> a = a'.
Proof.
  induction l as [|a0 l IH]; intros Hnd Ha Ha' E; [destruct Ha|].
  inversion Hnd as [|? ? Hnot Hnd']; subst.
  destruct Ha as [<-|Ha], Ha' as [<-|Ha'].
  - reflexivity.
  - elim Hnot. rewrite E. apply in_map. exact Ha'.
  - elim Hnot. rewrite <- E. apply in_map. exact Ha.
  - exact (IH Hnd' Ha Ha' E).
Qed.

(** One completed tick, seen from one animal. *)
Lemma tick_one_animal {F : Type} `{Num F} (env : Tick F) (s s' : t F)
      (a : Animal.t F) (b : bool) :
  _tick_loop env s = Ok s' ->
  NoDup (ids s) -> In a (values (animals s)) ->
  now_inside s env a = Val b ->
  ids s' = ids s /\
  In (animal (process s env a)) (values (animals s')) /\
  Animal.id (animal (process s env a)) = Animal.id a /\
  Animal.inside (animal (process s env a)) = b /\
  exists rows,
    alerts s' = alerts s ++ rows /\
    map kind (rows_of (Animal.id a) rows) = transition (Animal.inside a) b.
Proof.
  intros Htick Hnd Hin Hnow.
  destruct (tick_completed env s s' Htick) as (Hall & Ea & El & _).
  assert (Hall' : Forall (fun a0 => raised (process s env a0) = None) (values (animals s))).
  { unfold values. rewrite Forall_map. exact Hall. }
  assert (Hr : raised (process s env a) = None).
  { rewrite Forall_forall in Hall'. exact (Hall' a Hin). }
  destruct (process_completed s env a Hr) as (b' & Hnow' & Hins & Hid & _ & _ & Hk & _).
  assert (Eb : b' = b) by congruence. rewrite Eb in *. clear Eb Hnow'.
  repeat split; auto.
  - unfold ids, values. rewrite Ea, !map_map. simpl.
    apply map_ext_in. intros e He.
    assert (Hre : raised (process s env (snd e)) = None).
    { rewrite Forall_forall in Hall. exact (Hall e He). }
    destruct (process_completed s env (snd e) Hre) as (? & _ & _ & E & _). exact E.
  - unfold values. rewrite Ea, map_map. simpl.
    unfold values in Hin. apply in_map_iff in Hin. destruct Hin as [e [<- He]].
    apply in_map_iff. exists e. split; [reflexivity | exact He].
  - eexists. split; [exact El|].
    replace (concat (map (fun e => emitted (process s env (snd e))) (animals s)))
      with (concat (map (fun a0 => emitted (process s env a0)) (values (animals s))))
      by (unfold values; rewrite map_map; reflexivity).
    rewrite (rows_of_loop s env a (values (animals s)) Hnd Hin Hall'). exact Hk.
Qed.

(** Over a run of completed ticks, the rows about one animal are exactly
    the changes of its containment, in order. *)
Lemma run_rows {F : Type} `{Num F} (i : Z) (s s' : t F) (envs : list (Tick F))
      (bs : list bool) :
  observed i s envs bs s' ->
  forall a : Animal.t F,
    NoDup (ids s) -> In a (values (animals s)) -> Animal.id a = i ->
    exists rows,
      alerts s' = alerts s ++ rows /\
      map kind (rows_of i rows) = transitions (Animal.inside a) bs.
Proof.
  induction 1 as [s | s s1 s' env envs a0 b bs Htick Hin0 Hid0 Hnow _ IH];
    intros a Hnd Hin Hid.
  - exists []. rewrite app_nil_r. split; reflexivity.
  - assert (a0 = a).
    { apply (same_id_same_animal (values (animals s))); auto. congruence. }
    subst a0.
    destruct (tick_one_animal env s s1 a b Htick Hnd Hin Hnow)
      as (Eids & Hin1 & Hid1 & Hins1 & rows1 & El1 & Ek1).
    assert (Hnd1 : NoDup (ids s1)) by (rewrite Eids; exact Hnd).
    destruct (IH _ Hnd1 Hin1 (eq_trans Hid1 Hid)) as (rows2 & El2 & Ek2).
    exists (rows1 ++ rows2). split.
    + rewrite El2, El1, app_assoc. reflexivity.
    + rewrite rows_of_app, map_app. rewrite <- Hid at 1. rewrite Ek1, Ek2, Hins1.
      reflexivity.
Qed.

(** Ticks in a row, as the timer runs them: an exception ends the run
    (the tick that raised did not re-arm the timer). *)
Fixpoint run_ticks {F : Type} `{Num F} (envs : list (Tick F)) (s : t F) : Res F :=
  match envs with
  | [] => Ok s
  | env :: rest => bind (_tick_loop env s) (run_ticks rest)
  end.

(** Every completed run can be observed, for every registered animal. *)
Lemma run_observed {F : Type} `{Num F} (envs : list (Tick F)) :
  forall (s s' : t F) (a : Animal.t F),
    run_ticks envs s = Ok s' ->
    NoDup (ids s) -> In a (values (animals s)) ->
    exists bs, observed (Animal.id a) s envs bs s'.
Proof.
  induction envs as [|env rest IH]; intros s s' a Hrun Hnd Hin; simpl in Hrun.
  - injection Hrun as <-. exists []. constructor.
  - destruct (_tick_loop env s) as [s1|e s1] eqn:Htick; simpl in Hrun; [|discriminate].
    destruct (tick_completed env s s1 Htick) as (Hall & _).
    assert (Hr : raised (process s env a) = None).
    { unfold values in Hin. apply in_map_iff in Hin. destruct Hin as [e [<- He]].
      rewrite Forall_forall in Hall. exact (Hall e He). }
    destruct (process_completed s env a Hr) as (b & Hnow & _).
    destruct (tick_one_animal env s s1 a b Htick Hnd Hin Hnow)
      as (Eids & Hin1 & Hid1 & _).
    assert (Hnd1 : NoDup (ids s1)) by (rewrite Eids; exact Hnd).
    destruct (IH s1 s' _ Hrun Hnd1 Hin1) as [bs Hobs].
    rewrite Hid1 in Hobs.
    exists (b :: bs). econstructor; eauto.
Qed.

(** X2. The alerts are edge-triggered.  For every run of completed ticks
    and every animal of a registry with distinct ids, the rows the run
    appends to the alert log about that animal are, in order, exactly the
    changes in the sequence of containments the ticks computed for it,
    starting from its stored state: LEFT on inside-to-outside, re-entered on
    outside-to-inside, nothing while the containment stays the same. *)
Theorem alerts_follow_transitions {F : Type} `{Num F} (envs : list (Tick F))
        (s s' : t F) (a : Animal.t F) :
  run_ticks envs s = Ok s' ->
  NoDup (ids s) -> In a (values (animals s)) ->
  exists bs rows,
    observed (Animal.id a) s envs bs s' /\
    alerts s' = alerts s ++ rows /\
    map kind (rows_of (Animal.id a) rows) = transitions (Animal.inside a) bs.
Proof.
  intros Hrun Hnd Hin.
  destruct (run_observed envs s s' a Hrun Hnd Hin) as [bs Hobs].
  destruct (run_rows _ s s' envs bs Hobs a Hnd Hin eq_refl) as (rows & El & Ek).
  exists bs, rows. repeat split; assumption.
Qed.

Lemma transitions_stay (b : bool) (n : nat) : transitions b (repeat b n) = [].
Proof. induction n as [|n IH]; [reflexivity|]. simpl. rewrite IH. destruct b; reflexivity. Qed.

Lemma transitions_out_then_in (n m : nat) :
  transitions true (repeat false (S n) ++ repeat true m) =
    LEFT :: match m with O => [] | S _ => [RE_ENTERED] end.
Proof.
  simpl. f_equal. induction n as [|n IH]; simpl.
  - destruct m as [|m]; [reflexivity|]. simpl. rewrite transitions_stay. reflexivity.
  - exact IH.
Qed.

(** X3. An animal stored as inside whose computed containment is false
    for [n + 1] ticks in a row and then true for [m] ticks gets, over the
    whole run, exactly one LEFT row followed, when [m] is at least 1, by
    exactly one re-entered row, however long it stayed out and however long
    it stays back in; when it does not come back ([m = 0]) it gets the LEFT
    row alone. *)
Theorem out_and_back_alerts {F : Type} `{Num F} (i : Z) (envs : list (Tick F))
        (s s' : t F) (a : Animal.t F) (n m : nat) :
  observed i s envs (repeat false (S n) ++ repeat true m) s' ->
  NoDup (ids s) -> In a (values (animals s)) -> Animal.id a = i ->
  Animal.inside a = true ->
  exists rows,
    alerts s' = alerts s ++ rows /\
    map kind (rows_of i rows) =
      LEFT :: match m with O => [] | S _ => [RE_ENTERED] end.
Proof.
  intros Hobs Hnd Hin Hid Hins.
  destruct (run_rows i s s' envs _ Hobs a Hnd Hin Hid) as (rows & El & Ek).
  exists rows. split; [exact El|].
  rewrite Ek, Hins. apply transitions_out_then_in.
Qed.

(** X4. On a completed tick the rows about an animal are the single row
    its change of containment calls for, and there is none when the
    containment computed equals the stored state; the stored state is then
    the containment computed. *)
Theorem tick_alert_only_on_change {F : Type} `{Num F} (env : Tick F) (s s' : t F)
        (a : Animal.t F) (b : bool) :
  _tick_loop env s = Ok s' ->
  NoDup (ids s) -> In a (values (animals s)) ->
  now_inside s env a = Val b ->
  exists rows a',
    alerts s' = alerts s ++ rows /\
    map kind (rows_of (Animal.id a) rows) = transition (Animal.inside a) b /\
    (b = Animal.inside a -> rows_of (Animal.id a) rows = []) /\
    In a' (values (animals s')) /\ Animal.id a' = Animal.id a /\
    Animal.inside a' = b.
Proof.
  intros Htick Hnd Hin Hnow.
  destruct (tick_one_animal env s s' a b Htick Hnd Hin Hnow)
    as (_ & Hin' & Hid' & Hins' & rows & El & Ek).
  exists rows, (animal (process s env a)). repeat split; auto.
  intros ->. destruct (rows_of (Animal.id a) rows); [reflexivity|].
  destruct (Animal.inside a); discriminate Ek.
Qed.

(** A square fence of side 100 drawn and activated, with one animal at
    (99.5, 50) heading east at speed 1; seven ticks, the fourth of which
    turns the animal back (the wander draw -3 reverses its heading). *)
Definition fenced : t float :=
  final (add_random_animal (spawn_at 99.5 50)
    (finish_polygon (canvas_click 0 100 (canvas_click 100 100 (canvas_click 100 0
      (canvas_click 0 0 (toggle_draw_mode fresh))))))).

Definition turn : Tick float :=
  {| wander := fun _ => {| Animal.dvx := (-3)%float; Animal.dvy := 0%float |};
     clock := fun _ => "2024-01-01 12:00:05"%string |}.

Definition sample_run : list (Tick float) :=
  [calm; calm; calm; turn; calm; calm; calm].

Ltac observe_tick :=
  eapply observed_tick;
  [ vm_compute; reflexivity
  | cbv; left; reflexivity
  | reflexivity
  | vm_compute; reflexivity
  | ].

Lemma sample_run_observed :
  observed 1 fenced sample_run (repeat false 5 ++ repeat true 2)
           (final (run_ticks sample_run fenced)).
Proof.
  unfold sample_run. simpl repeat. simpl app.
  do 7 observe_tick.
  apply observed_nil.
Qed.

(** The animal of [fenced], as [_create_animal] made it. *)
Definition sample_animal : Animal.t float :=
  Animal.set_canvas_obj (Some 9%positive)
    (Animal.init 1 99.5%float 50%float 1%float east).

Lemma sample_animal_registered : In sample_animal (values (animals fenced)).
Proof. vm_compute. left. reflexivity. Qed.

Lemma fenced_ids_distinct : NoDup (ids fenced).
Proof. vm_compute. constructor; [intros [] | constructor]. Qed.

Lemma out_and_back_alerts_witness :
  exists rows,
    alerts (final (run_ticks sample_run fenced)) = alerts fenced ++ rows /\
    map kind (rows_of 1 rows) = [LEFT; RE_ENTERED].
Proof.
  exact (out_and_back_alerts 1 sample_run fenced _ sample_animal 4 2
           sample_run_observed fenced_ids_distinct sample_animal_registered
           eq_refl eq_refl).
Defined.

Lemma alerts_follow_transitions_witness :
  exists bs rows,
    alerts (final (run_ticks sample_run fenced)) = alerts fenced ++ rows /\
    map kind (rows_of 1 rows) = transitions true bs.
Proof.
  assert (Hrun : run_ticks sample_run fenced = Ok (final (run_ticks sample_run fenced)))
    by (vm_compute; reflexivity).
  destruct (alerts_follow_transitions sample_run fenced _ sample_animal Hrun
              fenced_ids_distinct sample_animal_registered)
    as (bs & rows & _ & El & Ek).
  exists bs, rows. split; [exact El | exact Ek].
Defined.

Lemma tick_alert_only_on_change_witness :
  exists rows,
    alerts (final (_tick_loop calm fenced)) = alerts fenced ++ rows /\
    map kind (rows_of 1 rows) = [LEFT].
Proof.
  assert (Htick : _tick_loop calm fenced = Ok (final (_tick_loop calm fenced)))
    by (vm_compute; reflexivity).
  assert (Hnow : now_inside fenced calm sample_animal = Val false)
    by (vm_compute; reflexivity).
  destruct (tick_alert_only_on_change calm fenced _ sample_animal false Htick
              fenced_ids_distinct sample_animal_registered Hnow)
    as (rows & a' & El & Ek & _).
  exists rows. split; [exact El | exact Ek].
Defined.

(** ** What a tick leaves alone *)

Lemma crossing_keeps_id {F : Type} `{Num F} (now : string) (b : bool) (a : Animal.t F) :
  Animal.id (animal (crossing now b a)) = Animal.id a.
Proof.
  unfold crossing.
  destruct b, (Animal.inside a) eqn:Ei; simpl; rewrite ?Ei; simpl;
    try reflexivity.
  - destruct (alert_row now RE_ENTERED (Animal.set_inside true a)); reflexivity.
  - destruct (alert_row now LEFT (Animal.set_inside false a)); reflexivity.
Qed.

Lemma process_keeps_id {F : Type} `{Num F} (s : t F) (env : Tick F) (a : Animal.t F) :
  Animal.id (animal (process s env a)) = Animal.id a.
Proof.
  unfold process. fold (moved s env a).
  destruct (classify s (Animal.x (moved s env a)) (Animal.y (moved s env a))).
  - rewrite crossing_keeps_id. exact (proj1 (moved_keeps s env a)).
  - exact (proj1 (moved_keeps s env a)).
Qed.

Lemma process_all_keeps_keys {F : Type} `{Num F} (s : t F) (env : Tick F)
      (d : Registry F) :
  keys (fst (fst (process_all s env d))) = keys d /\
  map Animal.id (values (fst (fst (process_all s env d)))) = map Animal.id (values d).
Proof.
  induction d as [|[k a] rest [IHk IHi]]; [split; reflexivity|].
  simpl. destruct (raised (process s env a)).
  - simpl. rewrite process_keeps_id. split; reflexivity.
  - destruct (process_all s env rest) as [[rest' rows] r]. simpl in *.
    rewrite process_keeps_id, IHk, IHi. split; reflexivity.
Qed.

(** X5. A tick, whether it completes or is cut by an exception, neither
    adds nor removes an animal and moves none to another key: the keys of
    the registry and the ids stored under them are the same before and
    after, in the same order, and so are the id counter, the fence (its
    vertices and its canvas item) and the canvas size. *)
Theorem tick_keeps_registry_and_fence {F : Type} `{Num F} (env : Tick F) (s : t F) :
  keys (animals (final (_tick_loop env s))) = keys (animals s) /\
  ids (final (_tick_loop env s)) = ids s /\
  next_animal_id (final (_tick_loop env s)) = next_animal_id s /\
  polygon_points (final (_tick_loop env s)) = polygon_points s /\
  fence_polygon_id (final (_tick_loop env s)) = fence_polygon_id s /\
  cv_width (final (_tick_loop env s)) = cv_width s /\
  cv_height (final (_tick_loop env s)) = cv_height s.
Proof.
  unfold _tick_loop, ids.
  destruct (process_all_keeps_keys s env (animals s)) as [Hk Hi].
  destruct (process_all s env (animals s)) as [[d rows] r]. simpl in Hk, Hi.
  destruct (alerts_fold_announce rows (set_animals d s))
    as (_ & H2 & H3 & H4 & H5 & H6 & H7 & _).
  destruct r as [e|]; simpl.
  - rewrite H2, H3, H4, H5, H6, H7. simpl. rewrite Hk, Hi. repeat split.
  - match goal with
    | |- context [if ?c then _ else _] => destruct c
    end; simpl; rewrite H2, H3, H4, H5, H6, H7; simpl; rewrite Hk, Hi; repeat split.
Qed.

(** The classification reads the fence only. *)
Lemma classify_reads {F : Type} `{Num F} (s1 s2 : t F) (x y : F) :
  fence_polygon_id s1 = fence_polygon_id s2 ->
  polygon_points s1 = polygon_points s2 ->
  classify s1 x y = classify s2 x y.
Proof.
  intros Hf Hp. unfold classify, _get_active_polygon_points. rewrite Hf, Hp.
  reflexivity.
Qed.

(** The stored states after a completed tick are the classifications of
    the positions reached. *)
Lemma tick_state_after {F : Type} `{Num F} (env : Tick F) (s s' : t F) :
  _tick_loop env s = Ok s' ->
  Forall (fun a => classify s' (Animal.x a) (Animal.y a) = Val (Animal.inside a))
         (values (animals s')).
Proof.
  intros Htick.
  destruct (tick_completed env s s' Htick) as (Hall & Ea & _ & Hp & Hf & _).
  unfold values. rewrite Ea, map_map. simpl. rewrite Forall_map.
  rewrite Forall_forall in *. intros e He.
  destruct (process_completed s env (snd e) (Hall e He))
    as (b & Hnow & Hins & _ & Hx & Hy & _).
  rewrite (classify_reads s' s _ _ Hf Hp), Hx, Hy, Hins. exact Hnow.
Qed.

(** X6. After a completed tick the stored state of every animal agrees
    with the fence: it is the classification of the position the animal
    now has. *)
Theorem tick_state_matches_position {F : Type} `{Num F} (env : Tick F) (s s' : t F) :
  _tick_loop env s = Ok s' ->
  Forall (fun a => classify s' (Animal.x a) (Animal.y a) = Val (Animal.inside a))
         (values (animals s')).
Proof. exact (tick_state_after env s s'). Qed.

Lemma tick_state_matches_position_witness :
  Forall (fun a => classify (final (_tick_loop calm fenced)) (Animal.x a) (Animal.y a)
                   = Val (Animal.inside a))
         (values (animals (final (_tick_loop calm fenced)))).
Proof.
  apply (tick_state_matches_position calm fenced).
  vm_compute; reflexivity.
Defined.

(** ** When the containment test and the tick raise *)

(** No pair of vertices the loop visits makes the divisor
    [yj - yi + 1e-12] zero. *)
Fixpoint edges_safe_loop {F : Type} `{Num F} (poly : list (F * F)) (idxs : list nat)
         (j : nat) : bool :=
  match idxs with
  | [] => true
  | i :: rest =>
      let d := (of_int 0, of_int 0) in
      let '(_, yi) := nth i poly d in
      let '(_, yj) := nth j poly d in
      negb (is_zero (yj - yi + lit_1e_12)%num) && edges_safe_loop poly rest i
  end.

Definition edges_safe {F : Type} `{Num F} (poly : list (F * F)) : bool :=
  edges_safe_loop poly (seq 0 (length poly)) (length poly - 1)%nat.

Lemma crossing_loop_raises {F : Type} `{Num F} (x y : F) (poly : list (F * F))
      (idxs : list nat) :
  forall (j : nat) (inside : bool),
    (forall e, crossing_loop x y poly idxs j inside = Exc e -> e = ZeroDivisionError) /\
    (edges_safe_loop poly idxs j = true ->
     exists b, crossing_loop x y poly idxs j inside = Val b).
Proof.
  induction idxs as [|i rest IH]; intros j inside; simpl; unfold Point in *.
  - split; [discriminate | intros _; eexists; reflexivity].
  - destruct (nth i poly (of_int 0, of_int 0)) as [xi yi].
    destruct (nth j poly (of_int 0, of_int 0)) as [xj yj].
    destruct (negb (Bool.eqb (flt y yi) (flt y yj))).
    + destruct (is_zero (yj - yi + lit_1e_12)%num); simpl.
      * split.
        -- intros e0 E. inversion E. reflexivity.
        -- intros Hs. discriminate Hs.
      * apply IH.
    + split; [apply IH|]. intros Hs. apply andb_prop in Hs. apply IH. exact (proj2 Hs).
Qed.

(** X7. The containment test can raise nothing but [ZeroDivisionError],
    and it raises nothing (it returns a boolean) on a polygon none of whose
    edges has [yj - yi + 1e-12] equal to zero. *)
Theorem point_in_polygon_raises {F : Type} `{Num F} (x y : F) (poly : list (F * F)) :
  (forall e, point_in_polygon x y poly = Exc e -> e = ZeroDivisionError) /\
  (edges_safe poly = true -> exists b, point_in_polygon x y poly = Val b).
Proof.
  unfold point_in_polygon, edges_safe.
  destruct poly as [|p l]; [split; [discriminate | intros _; eexists; reflexivity]|].
  apply crossing_loop_raises.
Qed.

Lemma point_in_polygon_raises_witness :
  exists b, point_in_polygon 7%float 3%float square = Val b.
Proof.
  apply (proj2 (point_in_polygon_raises 7%float 3%float square)).
  vm_compute; reflexivity.
Defined.

(** The exception does occur in binary64: the edge from (0,0) up to
    (0,1e-12) straddles the ray of the point (5,0) and its divisor
    [0 - 1e-12 + 1e-12] is zero. *)
Lemma point_in_polygon_zero_division :
  point_in_polygon 5%float 0%float [(0, 1e-12); (1, 1); (0, 0)]%float
    = Exc ZeroDivisionError.
Proof. vm_compute; reflexivity. Qed.

(** The classification by cases on the fence item. *)
Lemma classify_cases {F : Type} `{Num F} (s : t F) (x y : F) :
  classify s x y =
    match fence_polygon_id s with
    | Some _ => point_in_polygon x y (polygon_points s)
    | None =>
        if (3 <=? length (polygon_points s))%nat
        then point_in_polygon x y (polygon_points s)
        else Val true
    end.
Proof.
  unfold classify, _get_active_polygon_points.
  destruct (fence_polygon_id s) as [item|]; destruct (polygon_points s) as [|p l];
    cbn [orb]; reflexivity.
Qed.

Lemma classify_returns {F : Type} `{Num F} (s : t F) (x y : F) :
  edges_safe (polygon_points s) = true -> exists b, classify s x y = Val b.
Proof.
  intros Hsafe. rewrite classify_cases.
  pose proof (proj2 (point_in_polygon_raises x y (polygon_points s)) Hsafe) as Hp.
  destruct (fence_polygon_id s); [exact Hp|].
  destruct (3 <=? length (polygon_points s))%nat; [exact Hp | eexists; reflexivity].
Qed.

Lemma process_returns {F : Type} `{Num F} (s : t F) (env : Tick F) (a : Animal.t F) :
  (forall v : F, exists z, to_int v = Val z) ->
  edges_safe (polygon_points s) = true ->
  raised (process s env a) = None.
Proof.
  intros Htot Hsafe. unfold process. fold (moved s env a).
  destruct (classify_returns s (Animal.x (moved s env a)) (Animal.y (moved s env a)) Hsafe)
    as [b ->].
  assert (Hrow : forall now k a0, exists row, alert_row now k a0 = Val row).
  { intros now k a0. unfold alert_row.
    destruct (Htot (Animal.x a0)) as [ix ->]. destruct (Htot (Animal.y a0)) as [iy ->].
    eexists; reflexivity. }
  unfold crossing.
  destruct b, (Animal.inside (moved s env a)) eqn:Ei; simpl; rewrite ?Ei; simpl;
    try reflexivity.
  - destruct (Hrow (clock env (Animal.id a)) RE_ENTERED
                   (Animal.set_inside true (moved s env a))) as [row ->]. reflexivity.
  - destruct (Hrow (clock env (Animal.id a)) LEFT
                   (Animal.set_inside false (moved s env a))) as [row ->]. reflexivity.
Qed.

Lemma process_all_returns {F : Type} `{Num F} (s : t F) (env : Tick F) (d : Registry F) :
  (forall v : F, exists z, to_int v = Val z) ->
  edges_safe (polygon_points s) = true ->
  snd (process_all s env d) = None.
Proof.
  intros Htot Hsafe. induction d as [|[k a] rest IH]; [reflexivity|].
  simpl. rewrite (process_returns s env a Htot Hsafe).
  destruct (process_all s env rest) as [[rest' rows] r]. exact IH.
Qed.



(** ** The fence and the classification *)

(** One vertex: the single edge never straddles the ray. *)
Lemma point_in_polygon_single_vertex_any {F : Type} `{Num F} (x y : F) (v : F * F) :
  point_in_polygon x y [v] = Val false.
Proof.
  destruct v as [xv yv]. unfold point_in_polygon; simpl.
  rewrite Bool.eqb_reflx; reflexivity.
Qed.

(** Activation with 3 vertices or more: a fence item now exists, the
    vertices are kept, drawing mode is off and no box is shown. *)
Lemma finish_polygon_activates {F : Type} `{Num F} (s : t F) :
  (length (polygon_points s) <? 3)%nat = false ->
  exists item,
    fence_polygon_id (finish_polygon s) = Some item /\
    polygon_points (finish_polygon s) = polygon_points s /\
    draw_mode (finish_polygon s) = false /\
    shown (finish_polygon s) = shown s /\
    animals (finish_polygon s) = animals s.
Proof.
  intros Hlen. unfold finish_polygon. rewrite Hlen.
  destruct (fence_polygon_id s); simpl; eexists; repeat split.
Qed.

(** X9. "Finish & Activate" never changes how a position is classified.
    With fewer than 3 vertices it is refused; with 3 or more the vertices
    were already consulted as a draft (or as the fence they replace), and
    activation keeps them. *)
Theorem finish_polygon_keeps_classification {F : Type} `{Num F} (s : t F) (x y : F) :
  classify (finish_polygon s) x y = classify s x y.
Proof.
  destruct (length (polygon_points s) <? 3)%nat eqn:Hlen.
  - unfold finish_polygon. rewrite Hlen. apply classify_reads; reflexivity.
  - destruct (finish_polygon_activates s Hlen) as (item & Ef & Ep & _).
    rewrite !classify_cases, Ef, Ep.
    apply Nat.ltb_ge in Hlen. apply Nat.leb_le in Hlen. rewrite Hlen.
    destruct (fence_polygon_id s); reflexivity.
Qed.

(** A click in drawing mode appends its point and leaves the fence item. *)
Lemma canvas_click_drawing {F : Type} `{Num F} (ex ey : Z) (s : t F) :
  draw_mode s = true ->
  polygon_points (canvas_click ex ey s) = polygon_points s ++ [(of_int ex, of_int ey)] /\
  fence_polygon_id (canvas_click ex ey s) = fence_polygon_id s.
Proof.
  intros Hd. unfold canvas_click. rewrite Hd.
  match goal with
  | |- context [if ?c then _ else _] => destruct c
  end; split; reflexivity.
Qed.

(** X10. Redrawing suspends an active fence and then turns it inside
    out.  With a fence item on the canvas, entering drawing mode empties
    the vertex list, and every position is classified inside; after the
    first click the list has one vertex, the fence item lets it be
    consulted, and every position is classified outside. *)
Theorem redraw_suspends_then_excludes {F : Type} `{Num F} (s : t F) (item : positive)
        (ex ey : Z) (x y : F) :
  fence_polygon_id s = Some item -> draw_mode s = false ->
  classify (toggle_draw_mode s) x y = Val true /\
  classify (canvas_click ex ey (toggle_draw_mode s)) x y = Val false.
Proof.
  intros Hf Hd.
  assert (E1 : polygon_points (toggle_draw_mode s) = [])
    by (unfold toggle_draw_mode; rewrite Hd; reflexivity).
  assert (E2 : fence_polygon_id (toggle_draw_mode s) = Some item)
    by (unfold toggle_draw_mode; rewrite Hd; exact Hf).
  assert (E3 : draw_mode (toggle_draw_mode s) = true)
    by (unfold toggle_draw_mode; rewrite Hd; reflexivity).
  destruct (canvas_click_drawing ex ey (toggle_draw_mode s) E3) as [E4 E5].
  rewrite !classify_cases, E5, E4, E2, E1.
  split; [reflexivity | apply point_in_polygon_single_vertex_any].
Qed.

Lemma redraw_suspends_then_excludes_witness :
  classify (toggle_draw_mode (finish_polygon drafted)) 5%float 5%float = Val true /\
  classify (canvas_click 3 4 (toggle_draw_mode (finish_polygon drafted))) 5%float 5%float
    = Val false.
Proof.
  exact (redraw_suspends_then_excludes (finish_polygon drafted) _ 3 4 5%float 5%float
           eq_refl eq_refl).
Defined.

Lemma all_inside_count {F : Type} (s : t F) :
  Forall (fun a => Animal.inside a = true) (values (animals s)) ->
  inside_count s = total_entities s.
Proof.
  unfold inside_count, total_entities, values. intros Hall. f_equal.
  rewrite <- (length_map snd (animals s)).
  induction Hall as [|a l Ha _ IH]; [reflexivity|].
  simpl. rewrite Ha. simpl. f_equal. exact IH.
Qed.

(** X11. Clearing the fence frees every animal at the next tick: after
    [clear_fence], a tick that completes leaves every registered animal
    stored as inside, and the dashboard shows all of them inside and none
    outside. *)
Theorem clear_fence_then_tick {F : Type} `{Num F} (env : Tick F) (s s' : t F) :
  _tick_loop env (clear_fence s) = Ok s' ->
  Forall (fun a => Animal.inside a = true) (values (animals s')) /\
  status_inside s' = total_entities s' /\
  status_outside s' = 0.
Proof.
  intros Htick.
  assert (Hall : Forall (fun a => Animal.inside a = true) (values (animals s'))).
  { pose proof (tick_state_after env (clear_fence s) s' Htick) as Hm.
    destruct (tick_completed env (clear_fence s) s' Htick) as (_ & _ & _ & Hp & Hf & _).
    eapply Forall_impl; [|exact Hm]. intros a Ha. simpl in Ha.
    rewrite classify_cases, Hf, Hp in Ha.
    assert (Ef : fence_polygon_id (clear_fence s) = None)
      by (unfold clear_fence; destruct (fence_polygon_id s) eqn:E; simpl; auto).
    assert (Ep : polygon_points (clear_fence s) = [])
      by (unfold clear_fence; reflexivity).
    rewrite Ef, Ep in Ha. simpl in Ha. congruence. }
  destruct (tick_counts env (clear_fence s) s' Htick) as [Hin Hsum].
  rewrite (all_inside_count s' Hall) in Hin.
  repeat split; [exact Hall | exact Hin | lia].
Qed.

Lemma clear_fence_then_tick_witness :
  map Animal.inside (values (animals (final (_tick_loop calm fenced)))) = [false] /\
  status_outside
    (final (_tick_loop calm (clear_fence (final (_tick_loop calm fenced))))) = 0.
Proof.
  split; [vm_compute; reflexivity|].
  assert (Htick : _tick_loop calm (clear_fence (final (_tick_loop calm fenced)))
                  = Ok (final (_tick_loop calm (clear_fence (final (_tick_loop calm fenced))))))
    by (vm_compute; reflexivity).
  exact (proj2 (proj2 (clear_fence_then_tick calm _ _ Htick))).
Defined.

(** ** The arena *)

(** Reading the bounce over the reals. *)
Lemma bounce_R_x (w h : Z) (a : Animal.t R) :
  (10 <= w)%Z ->
  Animal.x (bounce w h a) =
    (if Rlt_dec (Animal.x a) 5 then 5
     else if Rlt_dec (IZR (w - 5)) (Animal.x a) then IZR (w - 5)
     else Animal.x a)%R /\
  Animal.vx (bounce w h a) =
    (if Rlt_dec (Animal.x a) 5 then Animal.vx a * - (6 / 10)
     else if Rlt_dec (IZR (w - 5)) (Animal.x a) then Animal.vx a * - (6 / 10)
     else Animal.vx a)%R.
Proof.
  intros Hw. assert (Hw5 : (5 <= IZR (w - 5))%R) by (apply (IZR_le 5); lia).
  unfold bounce. cbn -[IZR]. unfold R_ltb.
  destruct (Rlt_dec (Animal.x a) 5) as [Hlo|Hlo]; cbn -[IZR].
  - destruct (Rlt_dec (IZR (w - 5)) 5) as [Hc|_]; [lra|]. cbn -[IZR].
    repeat match goal with
           | |- context [if Rlt_dec ?p ?q then _ else _] => destruct (Rlt_dec p q)
           end; split; reflexivity.
  - destruct (Rlt_dec (IZR (w - 5)) (Animal.x a)) as [Hhi|Hhi]; cbn -[IZR];
    repeat match goal with
           | |- context [if Rlt_dec ?p ?q then _ else _] => destruct (Rlt_dec p q)
           end; split; reflexivity.
Qed.

Ltac split_bounce :=
  repeat (cbn -[IZR];
          match goal with
          | |- context [if Rlt_dec ?p ?q then _ else _] => destruct (Rlt_dec p q)
          end);
  cbn -[IZR] in *.

Lemma bounce_R_bounds (w h : Z) (a : Animal.t R) :
  (10 <= w)%Z -> (10 <= h)%Z ->
  (5 <= Animal.x (bounce w h a) <= IZR (w - 5))%R /\
  (5 <= Animal.y (bounce w h a) <= IZR (h - 5))%R.
Proof.
  intros Hw Hh.
  assert (Hw5 : (5 <= IZR (w - 5))%R) by (apply (IZR_le 5); lia).
  assert (Hh5 : (5 <= IZR (h - 5))%R) by (apply (IZR_le 5); lia).
  unfold bounce, R_Num. cbn -[IZR]. unfold R_ltb.
  split_bounce; lra.
Qed.



(** ** Resetting and removing *)

(** What the dashboard and the detector read of an animal. *)
Definition id_and_state {F : Type} (a : Animal.t F) : Z * bool :=
  (Animal.id a, Animal.inside a).

(** The loop of additions, when it completes: the animals are appended
    under the next ids in a row, each stored as inside. *)
Lemma add_random_animals_completed {F : Type} `{Num F} (draws : nat -> Spawn F)
      (n : nat) :
  forall (i : nat) (s s' : t F),
    Forall (fun k => k < next_animal_id s) (keys (animals s)) ->
    add_random_animals draws i n s = Ok s' ->
    map id_and_state (values (animals s')) =
      map id_and_state (values (animals s))
      ++ map (fun k => (k, true)) (ids_from (next_animal_id s) n) /\
    keys (animals s') = keys (animals s) ++ ids_from (next_animal_id s) n /\
    next_animal_id s' = next_animal_id s + Z.of_nat n.
Proof.
  induction n as [|n IH]; intros i s s' Hbelow Hrun; simpl in Hrun.
  - injection Hrun as <-. unfold ids_from. simpl. rewrite !app_nil_r.
    repeat split. lia.
  - unfold add_random_animal in Hrun.
    destruct (create_animal_registry (draw_x (draws i)) (draw_y (draws i))
                (birth (draws i)) s Hbelow) as [Ea En].
    destruct (_create_animal (draw_x (draws i)) (draw_y (draws i)) (birth (draws i)) s)
      as [s1|e s1]; simpl in Hrun; [|discriminate].
    simpl in Ea, En.
    assert (Hbelow1 : Forall (fun k => k < next_animal_id s1) (keys (animals s1))).
    { rewrite Ea, En. unfold keys. rewrite map_app. apply Forall_app. split.
      - eapply Forall_impl; [|exact Hbelow]. simpl; intros; lia.
      - constructor; [simpl; lia | constructor]. }
    destruct (IH (S i) s1 s' Hbelow1 Hrun) as (Hm & Hk & Hn).
    rewrite Hm, Hk, Hn, En, Ea, ids_from_S.
    unfold values, keys. rewrite !map_app. simpl. rewrite <- !app_assoc. simpl.
    repeat split. lia.
Qed.

Lemma count_all_inside {F : Type} (l : list (Animal.t F)) (ks : list Z) :
  map id_and_state l = map (fun k => (k, true)) ks ->
  length (filter Animal.inside l) = length l /\ map Animal.id l = ks.
Proof.
  revert ks. induction l as [|a l IH]; intros [|k ks] E; simpl in E;
    try discriminate; [split; reflexivity|].
  injection E as Ei Es Erest. destruct (IH ks Erest) as [Hl Hi].
  simpl. rewrite Es. simpl. rewrite Hl, Ei, Hi. split; reflexivity.
Qed.

(** X13. A reset that completes replaces the registry, whatever it held,
    by [n] new animals, [n] being the initial count (none when the count is
    negative): their ids are 1, 2, ..., n, each is stored as inside, the
    dashboard shows [n] inside and 0 outside, and the counter is at n + 1. *)
Theorem reset_animals_result {F : Type} `{Num F} (draws : nat -> Spawn F)
        (s s' : t F) :
  reset_animals draws s = Ok s' ->
  ids s' = ids_from 1 (Z.to_nat (Z.max 0 (init_animal_count s))) /\
  Forall (fun a => Animal.inside a = true) (values (animals s')) /\
  status_inside s' = Z.max 0 (init_animal_count s) /\
  status_outside s' = 0 /\
  next_animal_id s' = Z.max 0 (init_animal_count s) + 1.
Proof.
  unfold reset_animals. cbv zeta.
  set (base := set_next_animal_id 1 (set_animals [] s)).
  change (init_animal_count base) with (init_animal_count s).
  set (n := Z.to_nat (Z.max 0 (init_animal_count s))).
  destruct (add_random_animals draws 0 n base) as [s1|e s1] eqn:Hrun;
    simpl; [|discriminate].
  intros E; injection E as <-.
  assert (Hbelow : Forall (fun k => k < next_animal_id base) (keys (animals base)))
    by constructor.
  destruct (add_random_animals_completed draws n 0 base s1 Hbelow Hrun) as (Hm & _ & Hn).
  change (animals base) with (@nil (Z * Animal.t F)) in Hm.
  change (next_animal_id base) with 1 in Hm, Hn. cbn [values map app] in Hm.
  destruct (count_all_inside _ _ Hm) as [Hcount Hids].
  assert (Hlen : length (animals s1) = n).
  { rewrite <- (length_map snd), <- (length_map Animal.id). fold (values (animals s1)).
    rewrite Hids. unfold ids_from. rewrite length_map, length_seq. reflexivity. }
  assert (Hz : Z.of_nat n = Z.max 0 (init_animal_count s)) by (unfold n; lia).
  unfold ids. cbn [animals status_inside status_outside next_animal_id _update_counts log
                   set_log_lines set_status_inside set_status_outside].
  rewrite Hcount, Hn, Hids. unfold values at 2. rewrite length_map, Hlen.
  assert (Hlen' : length (values (animals s1)) = n)
    by (unfold values; rewrite length_map; exact Hlen).
  rewrite ?Hlen'.
  repeat split; try lia.
  apply Forall_forall. intros a Ha.
  assert (Hin : In (id_and_state a) (map id_and_state (values (animals s1))))
    by (apply in_map; exact Ha).
  rewrite Hm in Hin. apply in_map_iff in Hin. destruct Hin as [k [E _]].
  unfold id_and_state in E. congruence.
Qed.

Lemma reset_animals_result_witness :
  ids (final (reset_animals (fun _ => spawn_at 50 50) sample_state))
    = [1; 2; 3; 4; 5; 6; 7; 8] /\
  status_outside (final (reset_animals (fun _ => spawn_at 50 50) sample_state)) = 0.
Proof.
  assert (Hrun : reset_animals (fun _ => spawn_at 50 50) sample_state
                 = Ok (final (reset_animals (fun _ => spawn_at 50 50) sample_state)))
    by (vm_compute; reflexivity).
  destruct (reset_animals_result _ _ _ Hrun) as (Hi & _ & _ & Ho & _).
  split; [rewrite Hi; vm_compute; reflexivity | exact Ho].
Defined.

Lemma fold_max_spec (ks : list Z) :
  forall k : Z,
    In (fold_left Z.max ks k) (k :: ks) /\
    forall j, In j (k :: ks) -> j <= fold_left Z.max ks k.
Proof.
  induction ks as [|k1 ks IH]; intros k; simpl.
  - split; [left; reflexivity | intros j [<-|[]]; lia].
  - destruct (IH (Z.max k k1)) as [Hin Hmax]. split.
    + destruct Hin as [E|Hin]; [|right; right; exact Hin].
      rewrite <- E. destruct (Z.max_spec k k1) as [[_ ->]|[_ ->]]; auto.
    + pose proof (Hmax (Z.max k k1) (or_introl eq_refl)) as Htop.
      intros j [E|[E|Hj]].
      * rewrite <- E. lia.
      * rewrite <- E. lia.
      * apply Hmax. right. exact Hj.
Qed.

Lemma dict_pop_removes_one {F : Type} (k : Z) (d : Registry F) :
  NoDup (keys d) -> In k (keys d) ->
  S (length (dict_pop k d)) = length d /\ ~ In k (keys (dict_pop k d)) /\
  forall j, j <> k -> In j (keys d) -> In j (keys (dict_pop k d)).
Proof.
  unfold keys, dict_pop. intros Hnd Hin. split; [|split].
  - induction d as [|e d IH]; [destruct Hin|].
    inversion Hnd as [|? ? Hnot Hnd']; subst. simpl.
    destruct (Z.eqb_spec (fst e) k) as [E|Hne]; simpl.
    + f_equal. clear IH Hin Hnd. subst k.
      induction d as [|e1 d IHd]; [reflexivity|].
      inversion Hnd' as [|? ? _ Hnd1]; subst. simpl.
      destruct (Z.eqb_spec (fst e1) (fst e)) as [E1|_]; simpl.
      * elim Hnot. left. exact E1.
      * f_equal. apply IHd; auto. intros Hin. apply Hnot. right. exact Hin.
    + f_equal. apply IH; auto. destruct Hin as [E|Hin]; [contradiction | exact Hin].
  - intros Hin'. apply in_map_iff in Hin'. destruct Hin' as [e [E He]].
    apply filter_In in He. destruct He as [_ He]. subst k.
    rewrite Z.eqb_refl in He. discriminate He.
  - intros j Hj Hinj. apply in_map_iff in Hinj. destruct Hinj as [e [E He]].
    apply in_map_iff. exists e. split; [exact E|]. apply filter_In. split; [exact He|].
    subst j. destruct (Z.eqb_spec (fst e) k); [contradiction | reflexivity].
Qed.

(** X14. "Remove last" removes the animal with the largest id and no
    other.  On an empty registry it does nothing at all; otherwise, the
    keys being distinct, exactly one animal leaves the registry, its key is
    the largest, every other key stays, the dashboard counts are
    recomputed and the id counter does not move (so the id is not given
    again). *)
Theorem remove_last_removes_largest {F : Type} `{Num F} (s : t F) :
  (animals s = [] -> remove_last_animal s = s) /\
  (animals s <> [] -> NoDup (keys (animals s)) ->
   exists last,
     In last (keys (animals s)) /\
     (forall k, In k (keys (animals s)) -> k <= last) /\
     ~ In last (keys (animals (remove_last_animal s))) /\
     (forall k, k <> last -> In k (keys (animals s)) ->
                In k (keys (animals (remove_last_animal s)))) /\
     S (length (animals (remove_last_animal s))) = length (animals s) /\
     next_animal_id (remove_last_animal s) = next_animal_id s /\
     counts_exposed (remove_last_animal s)).
Proof.
  unfold remove_last_animal. split.
  - intros ->. reflexivity.
  - intros Hne Hnd.
    destruct (keys (animals s)) as [|k ks] eqn:Ek.
    { destruct (animals s); [contradiction | discriminate Ek]. }
    destruct (fold_max_spec ks k) as [Hin Hmax].
    rewrite <- Ek in Hin, Hmax, Hnd.
    destruct (dict_pop_removes_one (fold_left Z.max ks k) (animals s) Hnd Hin)
      as (Hlen & Hgone & Hkept).
    exists (fold_left Z.max ks k). rewrite <- Ek.
    repeat split; auto. apply update_counts_exposed.
Qed.

Lemma remove_last_removes_largest_witness :
  exists last,
    In last (keys (animals sample_state)) /\
    ~ In last (keys (animals (remove_last_animal sample_state))) /\
    S (length (animals (remove_last_animal sample_state))) = length (animals sample_state).
Proof.
  assert (Hne : animals sample_state <> []) by (vm_compute; discriminate).
  assert (Hnd : NoDup (keys (animals sample_state))).
  { vm_compute. constructor; [intros [E|[]]; discriminate E|].
    constructor; [intros []| constructor]. }
  destruct (proj2 (remove_last_removes_largest sample_state) Hne Hnd)
    as (last & Hin & _ & Hgone & _ & Hlen & _).
  exists last. repeat split; assumption.
Defined.

(** ** Loading: settings and fence *)

(** The seven Tk settings, the configured canvas size, and the rest of
    what spawning leaves alone. *)
Definition settings {F : Type} (s : t F) : Z * Z * Z * Z * F * Z * string :=
  (canvas_w s, canvas_h s, tick_ms s, init_animal_count s, speed_mul s,
   animal_size s, fence_color s).

Definition canvas_size {F : Type} (s : t F) : Z * Z := (cv_width s, cv_height s).

Definition untouched_by_spawn {F : Type} (s s' : t F) : Prop :=
  settings s' = settings s /\ canvas_size s' = canvas_size s /\
  polygon_points s' = polygon_points s /\
  fence_polygon_id s' = fence_polygon_id s /\
  draw_mode s' = draw_mode s /\ alerts s' = alerts s /\
  sim_running s' = sim_running s /\ job s' = job s /\ shown s' = shown s.

Lemma untouched_refl {F : Type} (s : t F) : untouched_by_spawn s s.
Proof. repeat split. Qed.

Lemma untouched_trans {F : Type} (s1 s2 s3 : t F) :
  untouched_by_spawn s1 s2 -> untouched_by_spawn s2 s3 -> untouched_by_spawn s1 s3.
Proof.
  unfold untouched_by_spawn.
  intros (A1 & A2 & A3 & A4 & A5 & A6 & A7 & A8 & A9)
         (B1 & B2 & B3 & B4 & B5 & B6 & B7 & B8 & B9).
  repeat split; congruence.
Qed.

Lemma create_animal_untouched {F : Type} `{Num F} (x y : F) (b : Animal.Birth F)
      (s : t F) :
  untouched_by_spawn s (final (_create_animal x y b s)).
Proof.
  unfold _create_animal. simpl.
  destruct (to_int x); [destruct (to_int y)|]; repeat split.
Qed.

Lemma load_entry_untouched {F : Type} `{Num F} (b : Animal.Birth F)
      (entry : Z * F * F * F * F) (s : t F) :
  untouched_by_spawn s (load_entry b entry s).
Proof.
  destruct entry as [[[[aid x] y] base] mult]. unfold load_entry.
  pose proof (create_animal_untouched x y b s) as Hc.
  destruct (_create_animal x y b s) as [s1|e s1]; simpl in Hc; [|exact Hc].
  destruct (dict_get (next_animal_id s1 - 1) (animals s1)); exact Hc.
Qed.

Lemma load_entries_untouched {F : Type} `{Num F} (births : nat -> Animal.Birth F)
      (entries : list (Z * F * F * F * F)) :
  forall (i : nat) (s : t F), untouched_by_spawn s (load_entries births i entries s).
Proof.
  induction entries as [|entry rest IH]; intros i s; simpl.
  - apply untouched_refl.
  - eapply untouched_trans; [apply load_entry_untouched | apply IH].
Qed.

(** The state the entries are loaded into. *)
Lemma load_config_unfold {F : Type} `{Num F} (c : Ascii.ascii) (fpath : string)
      (cfg : Cfg F) (births : nat -> Animal.Birth F) (s : t F) :
  load_config (String c fpath) (inr cfg) births s =
    _update_counts
      (log ("Config loaded from " ++ String c fpath)
         (load_entries births 0 (get (cfg_animals cfg) [])
            (set_next_animal_id 1
               (set_animals [] (load_fence cfg (load_settings cfg s)))))).
Proof. reflexivity. Qed.

Lemma load_fence_result {F : Type} `{Num F} (cfg : Cfg F) (s : t F) :
  polygon_points (load_fence cfg s) = get (cfg_polygon_points cfg) [] /\
  (fence_polygon_id (load_fence cfg s) <> None <->
   (3 <= length (get (cfg_polygon_points cfg) []))%nat) /\
  settings (load_fence cfg s) = settings s /\
  canvas_size (load_fence cfg s) = canvas_size s /\
  alerts (load_fence cfg s) = alerts s.
Proof.
  unfold load_fence. cbv zeta.
  set (s1 := set_polygon_points (get (cfg_polygon_points cfg) []) s).
  set (s2 := match fence_polygon_id s1 with
             | Some _ => set_fence_polygon_id None s1
             | None => s1
             end).
  assert (H2 : polygon_points s2 = get (cfg_polygon_points cfg) [] /\
               fence_polygon_id s2 = None /\ settings s2 = settings s /\
               canvas_size s2 = canvas_size s /\ alerts s2 = alerts s).
  { unfold s2. destruct (fence_polygon_id s1) eqn:Ef; repeat split; auto. }
  destruct H2 as (Hp & Hf & Hs & Hc & Ha). rewrite Hp.
  destruct (3 <=? length (get (cfg_polygon_points cfg) []))%nat eqn:Hlen.
  - apply Nat.leb_le in Hlen. cbn. rewrite Hp.
    repeat split; auto. discriminate.
  - apply Nat.leb_gt in Hlen. rewrite Hf.
    repeat split; auto; [intros Hx; elim Hx; reflexivity | lia].
Qed.

(** The settings a document yields over the current ones. *)
Definition settings_of_document {F : Type} (cfg : Cfg F) (s : t F)
  : Z * Z * Z * Z * F * Z * string :=
  (get (cfg_canvas_w cfg) (canvas_w s), get (cfg_canvas_h cfg) (canvas_h s),
   get (cfg_tick_ms cfg) (tick_ms s),
   get (cfg_init_animal_count cfg) (init_animal_count s),
   get (cfg_speed_mul cfg) (speed_mul s),
   get (cfg_animal_size cfg) (animal_size s),
   get (cfg_fence_color cfg) (fence_color s)).

Lemma load_settings_result {F : Type} `{Num F} (cfg : Cfg F) (s : t F) :
  settings (load_settings cfg s) =
    (get (cfg_canvas_w cfg) (canvas_w s), get (cfg_canvas_h cfg) (canvas_h s),
     get (cfg_tick_ms cfg) (tick_ms s),
     get (cfg_init_animal_count cfg) (init_animal_count s),
     get (cfg_speed_mul cfg) (speed_mul s),
     get (cfg_animal_size cfg) (animal_size s),
     get (cfg_fence_color cfg) (fence_color s)) /\
  canvas_size (load_settings cfg s) =
    (get (cfg_canvas_w cfg) (canvas_w s), get (cfg_canvas_h cfg) (canvas_h s)) /\
  alerts (load_settings cfg s) = alerts s.
Proof. split; [reflexivity|]. split; reflexivity. Qed.

Lemma update_counts_log_untouched {F : Type} `{Num F} (text : string) (s : t F) :
  untouched_by_spawn s (_update_counts (log text s)).
Proof. unfold untouched_by_spawn. repeat split. Qed.

Lemma emptied_registry_untouched {F : Type} (s : t F) :
  untouched_by_spawn s (set_next_animal_id 1 (set_animals [] s)).
Proof. unfold untouched_by_spawn. repeat split. Qed.

(** From the state the entries are loaded into to the state [load_config]
    leaves, spawning apart nothing changes. *)
Lemma load_config_tail_untouched {F : Type} `{Num F} (c : Ascii.ascii) (fpath : string)
      (cfg : Cfg F) (births : nat -> Animal.Birth F) (s : t F) :
  untouched_by_spawn (load_fence cfg (load_settings cfg s))
                     (load_config (String c fpath) (inr cfg) births s).
Proof.
  rewrite load_config_unfold.
  eapply untouched_trans; [apply emptied_registry_untouched|].
  eapply untouched_trans; [apply load_entries_untouched|].
  apply update_counts_log_untouched.
Qed.

Lemma load_config_no_animals {F : Type} `{Num F} (c : Ascii.ascii) (fpath : string)
      (cfg : Cfg F) (births : nat -> Animal.Birth F) (s : t F) :
  cfg_animals cfg = None ->
  animals (load_config (String c fpath) (inr cfg) births s) = [] /\
  next_animal_id (load_config (String c fpath) (inr cfg) births s) = 1 /\
  status_inside (load_config (String c fpath) (inr cfg) births s) = 0 /\
  status_outside (load_config (String c fpath) (inr cfg) births s) = 0.
Proof.
  intros Hnone. rewrite load_config_unfold, Hnone.
  split; [reflexivity|]. split; [reflexivity|]. split; reflexivity.
Qed.

(** X15. Loading falls back key by key.  Each of the seven settings is
    afterwards the document's value when the key is present and the value it
    had when the key is missing; the canvas is resized to the document's
    width and height, a missing one being replaced by the value of the
    size setting (not by the size the canvas had); the alert log is not
    touched; and a document without the animals key leaves an empty
    registry, the counter at 1 and both dashboard counts at 0. *)
Theorem load_config_falls_back {F : Type} `{Num F} (fpath : string) (cfg : Cfg F)
        (births : nat -> Animal.Birth F) (s : t F) :
  fpath <> EmptyString ->
  settings (load_config fpath (inr cfg) births s) =
    (get (cfg_canvas_w cfg) (canvas_w s), get (cfg_canvas_h cfg) (canvas_h s),
     get (cfg_tick_ms cfg) (tick_ms s),
     get (cfg_init_animal_count cfg) (init_animal_count s),
     get (cfg_speed_mul cfg) (speed_mul s),
     get (cfg_animal_size cfg) (animal_size s),
     get (cfg_fence_color cfg) (fence_color s)) /\
  canvas_size (load_config fpath (inr cfg) births s) =
    (get (cfg_canvas_w cfg) (canvas_w s), get (cfg_canvas_h cfg) (canvas_h s)) /\
  alerts (load_config fpath (inr cfg) births s) = alerts s /\
  (cfg_animals cfg = None ->
   animals (load_config fpath (inr cfg) births s) = [] /\
   next_animal_id (load_config fpath (inr cfg) births s) = 1 /\
   status_inside (load_config fpath (inr cfg) births s) = 0 /\
   status_outside (load_config fpath (inr cfg) births s) = 0).
Proof.
  intros Hpath. destruct fpath as [|c fpath]; [congruence|].
  destruct (load_config_tail_untouched c fpath cfg births s)
    as (Hs & Hc & _ & _ & _ & Ha & _).
  destruct (load_fence_result cfg (load_settings cfg s)) as (_ & _ & Fs & Fc & Fa).
  destruct (load_settings_result cfg s) as (Ss & Sc & Sa).
  split; [|split; [|split]].
  - rewrite Hs, Fs. exact Ss.
  - rewrite Hc, Fc. exact Sc.
  - rewrite Ha, Fa. exact Sa.
  - apply load_config_no_animals.
Qed.

Lemma load_config_falls_back_witness :
  settings (load_config "fence.json" (inr nan_document) (fun _ => east) sample_state)
    = settings sample_state /\
  animals (load_config "fence.json"
             (inr {| cfg_canvas_w := Some 300; cfg_canvas_h := None; cfg_tick_ms := None;
                     cfg_init_animal_count := None; cfg_speed_mul := None;
                     cfg_animal_size := None; cfg_fence_color := None;
                     cfg_polygon_points := None; cfg_animals := None |})
             (fun _ => east) sample_state) = [].
Proof.
  assert (Hpath : "fence.json"%string <> EmptyString) by discriminate.
  split.
  - destruct (load_config_falls_back "fence.json" nan_document (fun _ => east)
                sample_state Hpath) as (Hs & _).
    rewrite Hs. reflexivity.
  - destruct (load_config_falls_back "fence.json"
                {| cfg_canvas_w := Some 300; cfg_canvas_h := None; cfg_tick_ms := None;
                   cfg_init_animal_count := None; cfg_speed_mul := None;
                   cfg_animal_size := None; cfg_fence_color := None;
                   cfg_polygon_points := None; cfg_animals := None |}
                (fun _ => east) sample_state Hpath) as (_ & _ & _ & Hn).
    exact (proj1 (Hn eq_refl)).
Defined.

(** X16. The fence after a load.  The vertex list is the document's (empty
    when the key is missing), whatever fence or draft existed; a fence item
    exists exactly when the document has 3 vertices or more; and a position
    is then classified by the ray-casting test on the loaded vertices, while
    a loaded list of fewer than 3 vertices constrains nothing. *)
Theorem load_config_fence {F : Type} `{Num F} (fpath : string) (cfg : Cfg F)
        (births : nat -> Animal.Birth F) (s : t F) (x y : F) :
  fpath <> EmptyString ->
  polygon_points (load_config fpath (inr cfg) births s)
    = get (cfg_polygon_points cfg) [] /\
  (fence_polygon_id (load_config fpath (inr cfg) births s) <> None <->
   (3 <= length (get (cfg_polygon_points cfg) []))%nat) /\
  classify (load_config fpath (inr cfg) births s) x y =
    if (3 <=? length (get (cfg_polygon_points cfg) []))%nat
    then point_in_polygon x y (get (cfg_polygon_points cfg) [])
    else Val true.
Proof.
  intros Hpath. destruct fpath as [|c fpath]; [congruence|].
  destruct (load_config_tail_untouched c fpath cfg births s)
    as (_ & _ & Hp & Hf & _).
  destruct (load_fence_result cfg (load_settings cfg s)) as (Fp & Ff & _).
  rewrite classify_cases, Hp, Hf, Fp.
  split; [reflexivity|]. split; [exact Ff|].
  destruct (3 <=? length (get (cfg_polygon_points cfg) []))%nat eqn:Hlen.
  - destruct (fence_polygon_id (load_fence cfg (load_settings cfg s))); reflexivity.
  - apply Nat.leb_gt in Hlen.
    destruct (fence_polygon_id (load_fence cfg (load_settings cfg s))) eqn:Ef;
      [|reflexivity].
    assert (Hsome : Some p <> None) by discriminate.
    apply Ff in Hsome. lia.
Qed.

Lemma load_config_fence_witness :
  classify (load_config "fence.json"
              (inr {| cfg_canvas_w := None; cfg_canvas_h := None; cfg_tick_ms := None;
                      cfg_init_animal_count := None; cfg_speed_mul := None;
                      cfg_animal_size := None; cfg_fence_color := None;
                      cfg_polygon_points := Some [(0, 0); (10, 0)]%float;
                      cfg_animals := None |})
              (fun _ => east) fenced) 15%float 5%float = Val true.
Proof.
  assert (Hpath : "fence.json"%string <> EmptyString) by discriminate.
  exact (proj2 (proj2 (load_config_fence "fence.json" _ (fun _ => east) fenced
                         15%float 5%float Hpath))).
Defined.

(** ** Every reachable state *)

(** What the operator and the timer can do: the buttons, a click on the
    canvas, an edit of one of the entry fields, and the firing of the timer
    a tick has armed. *)
Inductive Callback (F : Type) : Type :=
| Toggle_draw_mode
| Canvas_click (ex ey : Z)
| Finish_polygon
| Clear_fence
| Add_random_animal (d : Spawn F)
| Add_animal_at_center (d : Spawn F)
| Remove_last_animal
| Reset_animals (draws : nat -> Spawn F)
| Start_simulation (env : Tick F)
| Stop_simulation
| Timer (env : Tick F)
| Save_config (fpath : string)
| Load_config (fpath : string) (file : string + Cfg F) (births : nat -> Animal.Birth F)
| Edit_canvas_w (v : Z)
| Edit_canvas_h (v : Z)
| Edit_tick_ms (v : Z)
| Edit_init_animal_count (v : Z)
| Edit_speed_mul (v : F)
| Edit_animal_size (v : Z).
Arguments Toggle_draw_mode {F}.
Arguments Canvas_click {F} ex ey.
Arguments Finish_polygon {F}.
Arguments Clear_fence {F}.
Arguments Add_random_animal {F} d.
Arguments Add_animal_at_center {F} d.
Arguments Remove_last_animal {F}.
Arguments Reset_animals {F} draws.
Arguments Start_simulation {F} env.
Arguments Stop_simulation {F}.
Arguments Timer {F} env.
Arguments Save_config {F} fpath.
Arguments Load_config {F} fpath file births.
Arguments Edit_canvas_w {F} v.
Arguments Edit_canvas_h {F} v.
Arguments Edit_tick_ms {F} v.
Arguments Edit_init_animal_count {F} v.
Arguments Edit_speed_mul {F} v.
Arguments Edit_animal_size {F} v.

(** The state a callback leaves, whether it returned or raised.  The
    timer runs a tick only if one is pending. *)
Definition call {F : Type} `{Num F} (cb : Callback F) (s : t F) : t F :=
  match cb with
  | Toggle_draw_mode => toggle_draw_mode s
  | Canvas_click ex ey => canvas_click ex ey s
  | Finish_polygon => finish_polygon s
  | Clear_fence => clear_fence s
  | Add_random_animal d => final (add_random_animal d s)
  | Add_animal_at_center d => final (add_animal_at_center d s)
  | Remove_last_animal => remove_last_animal s
  | Reset_animals draws => final (reset_animals draws s)
  | Start_simulation env => final (start_simulation env s)
  | Stop_simulation => stop_simulation s
  | Timer env => if job s then final (_tick_loop env s) else s
  | Save_config fpath => snd (save_config fpath s)
  | Load_config fpath file births => load_config fpath file births s
  | Edit_canvas_w v => set_canvas_w v s
  | Edit_canvas_h v => set_canvas_h v s
  | Edit_tick_ms v => set_tick_ms v s
  | Edit_init_animal_count v => set_init_animal_count v s
  | Edit_speed_mul v => set_speed_mul v s
  | Edit_animal_size v => set_animal_size v s
  end.

(** The states of a session: the one [__init__] leaves, and those the
    callbacks lead to. *)
Inductive reachable {F : Type} `{Num F} : t F -> Prop :=
| reachable_init (draws : nat -> Spawn F) : reachable (final (init draws))
| reachable_call (cb : Callback F) (s : t F) : reachable s -> reachable (call cb s).

Lemma registry_ok_same {F : Type} (s s' : t F) :
  animals s' = animals s -> next_animal_id s' = next_animal_id s ->
  registry_ok s -> registry_ok s'.
Proof. unfold registry_ok. intros -> ->. exact (fun h => h). Qed.

Lemma ids_keys_back {F : Type} (d : Registry F) :
  map Animal.id (values d) = keys d ->
  Forall (fun e => Animal.id (snd e) = fst e) d.
Proof.
  unfold values, keys. induction d as [|e d IH]; intros E; [constructor|].
  simpl in E. injection E as E1 E2. constructor; [exact E1 | exact (IH E2)].
Qed.

Lemma job_fold_announce {F : Type} (rows : list Alert) (s : t F) :
  job (fold_left announce rows s) = job s.
Proof.
  revert s. induction rows as [|row rows IH]; intros s; [reflexivity|].
  simpl. rewrite IH. unfold announce. destruct (kind row); reflexivity.
Qed.

(** The registry a tick leaves, completed or not, and what it does to the
    log and to the timer. *)
Lemma tick_final {F : Type} `{Num F} (env : Tick F) (s : t F) :
  keys (animals (final (_tick_loop env s))) = keys (animals s) /\
  ids (final (_tick_loop env s)) = ids s /\
  next_animal_id (final (_tick_loop env s)) = next_animal_id s /\
  sim_running (final (_tick_loop env s)) = sim_running s /\
  (job (final (_tick_loop env s)) = true -> job s = true \/ sim_running s = true) /\
  exists rows, alerts (final (_tick_loop env s)) = alerts s ++ rows.
Proof.
  unfold _tick_loop, ids.
  destruct (process_all_keeps_keys s env (animals s)) as [Hk Hi].
  destruct (process_all s env (animals s)) as [[d rows] r]. simpl in Hk, Hi.
  destruct (alerts_fold_announce rows (set_animals d s))
    as (H1 & H2 & _ & _ & _ & _ & H7 & H8).
  pose proof (job_fold_announce rows (set_animals d s)) as Hjob. simpl in Hjob.
  destruct r as [e|]; simpl.
  - rewrite H2, H7, H8, Hjob. simpl. rewrite Hk, Hi.
    repeat split; auto. exists rows. exact H1.
  - destruct (sim_running (fold_left announce rows (set_animals d s))) eqn:Hrun;
      simpl; rewrite H2, H7, ?H8, ?Hjob; simpl; rewrite Hk, Hi;
      rewrite H8 in Hrun; simpl in Hrun; rewrite ?Hrun;
      repeat split; auto; exists rows; exact H1.
Qed.

Lemma tick_registry_ok {F : Type} `{Num F} (env : Tick F) (s : t F) :
  registry_ok s -> registry_ok (final (_tick_loop env s)).
Proof.
  intros (Hid & Hbelow & Hnd).
  destruct (tick_final env s) as (Hk & Hi & Hn & _).
  unfold registry_ok. rewrite Hk, Hn. repeat split; auto.
  apply ids_keys_back. fold (ids (final (_tick_loop env s))).
  rewrite Hi, Hk. apply ids_keys. exact Hid.
Qed.

Lemma started_registry_ok {F : Type} (s : t F) :
  registry_ok s -> registry_ok (started s).
Proof.
  intros (Hid & Hbelow & Hnd). unfold registry_ok, started, keys in *. simpl.
  rewrite map_map. simpl. repeat split; auto.
  rewrite Forall_map. simpl. exact Hid.
Qed.

Lemma start_simulation_unfold {F : Type} `{Num F} (env : Tick F) (s : t F) :
  start_simulation env s =
    if sim_running s then Ok s else _tick_loop env (started s).
Proof. reflexivity. Qed.

Lemma add_random_animals_final {F : Type} `{Num F} (draws : nat -> Spawn F) (n : nat) :
  forall (i : nat) (s : t F),
    (registry_ok s -> registry_ok (final (add_random_animals draws i n s))) /\
    untouched_by_spawn s (final (add_random_animals draws i n s)).
Proof.
  induction n as [|n IH]; intros i s; simpl.
  - split; [exact (fun h => h) | apply untouched_refl].
  - unfold add_random_animal.
    pose proof (create_animal_ok (draw_x (draws i)) (draw_y (draws i))
                  (birth (draws i)) s) as Hok.
    pose proof (create_animal_untouched (draw_x (draws i)) (draw_y (draws i))
                  (birth (draws i)) s) as Hun.
    destruct (_create_animal (draw_x (draws i)) (draw_y (draws i)) (birth (draws i)) s)
      as [s1|e s1]; simpl in *.
    + destruct (IH (S i) s1) as [IHok IHun]. split.
      * intros Hs. exact (IHok (Hok Hs)).
      * exact (untouched_trans _ _ _ Hun IHun).
    + split; [exact Hok | exact Hun].
Qed.

Lemma final_bind_ok {F : Type} (r : Res F) (f : t F -> t F) :
  final (bind r (fun s => Ok (f s))) =
    match r with
    | Ok s => f s
    | Raise _ s => s
    end.
Proof. destruct r; reflexivity. Qed.

Lemma reset_animals_final {F : Type} `{Num F} (draws : nat -> Spawn F) (s : t F) :
  registry_ok (final (reset_animals draws s)) /\
  untouched_by_spawn s (final (reset_animals draws s)).
Proof.
  unfold reset_animals. cbv zeta. rewrite final_bind_ok.
  set (base := set_next_animal_id 1 (set_animals [] s)).
  assert (Hbase : registry_ok base) by (repeat split; constructor).
  destruct (add_random_animals_final draws
              (Z.to_nat (Z.max 0 (init_animal_count base))) 0 base) as [Hok Hun].
  pose proof (emptied_registry_untouched s) as Hempty. fold base in Hempty.
  destruct (add_random_animals draws 0 (Z.to_nat (Z.max 0 (init_animal_count base))) base)
    as [s1|e s1]; simpl in Hok, Hun.
  - split.
    + apply (registry_ok_same s1); [reflexivity | reflexivity | exact (Hok Hbase)].
    + eapply untouched_trans; [exact Hempty|].
      eapply untouched_trans; [exact Hun|]. apply update_counts_log_untouched.
  - split; [exact (Hok Hbase) | exact (untouched_trans _ _ _ Hempty Hun)].
Qed.

Lemma dict_get_found {F : Type} (k : Z) (d : Registry F) (a : Animal.t F) :
  dict_get k d = Some a -> In (k, a) d.
Proof.
  unfold dict_get. destruct (find (fun e => fst e =? k) d) as [e|] eqn:Ef; [|discriminate].
  simpl. intros E; injection E as <-. apply find_some in Ef.
  destruct Ef as [Hin Hk]. apply Z.eqb_eq in Hk. destruct e as [k0 a0].
  simpl in *. subst k0. exact Hin.
Qed.

Lemma dict_set_present {F : Type} (k : Z) (a a' : Animal.t F) (d : Registry F) :
  In (k, a) d -> Animal.id a' = k ->
  keys (dict_set k a' d) = keys d /\
  (Forall (fun e => Animal.id (snd e) = fst e) d ->
   Forall (fun e => Animal.id (snd e) = fst e) (dict_set k a' d)).
Proof.
  intros Hin Hid. unfold dict_set.
  assert (Hex : existsb (fun e => fst e =? k) d = true).
  { apply existsb_exists. exists (k, a). split; [exact Hin | apply Z.eqb_refl]. }
  rewrite Hex. unfold keys. rewrite map_map. split.
  - apply map_ext. intros e. destruct (Z.eqb_spec (fst e) k); simpl; congruence.
  - intros Hall. rewrite Forall_map. eapply Forall_impl; [|exact Hall].
    intros e He. destruct (Z.eqb_spec (fst e) k); simpl; congruence.
Qed.

Lemma load_entry_registry_ok {F : Type} `{Num F} (b : Animal.Birth F)
      (entry : Z * F * F * F * F) (s : t F) :
  registry_ok s -> registry_ok (load_entry b entry s).
Proof.
  destruct entry as [[[[aid x] y] base] mult]. intros Hok. unfold load_entry.
  pose proof (create_animal_ok x y b s Hok) as Hok1.
  destruct (_create_animal x y b s) as [s1|e s1]; simpl in Hok1; [|exact Hok1].
  destruct (dict_get (next_animal_id s1 - 1) (animals s1)) as [new|] eqn:Eg; [|exact Hok1].
  apply dict_get_found in Eg.
  destruct Hok1 as (Hid & Hbelow & Hnd).
  assert (Hnew : Animal.id new = next_animal_id s1 - 1).
  { rewrite Forall_forall in Hid. exact (Hid _ Eg). }
  destruct (dict_set_present (next_animal_id s1 - 1) new
              (Animal.set_speed_multiplier mult (Animal.set_base_speed base new))
              (animals s1) Eg Hnew) as [Hk Hall].
  unfold registry_ok. simpl. rewrite Hk. repeat split; auto.
Qed.

Lemma load_entries_registry_ok {F : Type} `{Num F} (births : nat -> Animal.Birth F)
      (entries : list (Z * F * F * F * F)) :
  forall (i : nat) (s : t F),
    registry_ok s -> registry_ok (load_entries births i entries s).
Proof.
  induction entries as [|entry rest IH]; intros i s Hok; simpl; [exact Hok|].
  apply IH. apply load_entry_registry_ok. exact Hok.
Qed.

Lemma load_config_final {F : Type} `{Num F} (fpath : string) (file : string + Cfg F)
      (births : nat -> Animal.Birth F) (s : t F) :
  (registry_ok s -> registry_ok (load_config fpath file births s)) /\
  alerts (load_config fpath file births s) = alerts s /\
  sim_running (load_config fpath file births s) = sim_running s /\
  job (load_config fpath file births s) = job s.
Proof.
  destruct fpath as [|c fpath];
    [split; [exact (fun h => h) | split; [reflexivity | split; reflexivity]]|].
  destruct file as [err|cfg];
    [split; [exact (fun h => h) | split; [reflexivity | split; reflexivity]]|].
  split.
  - intros _. rewrite load_config_unfold.
    apply (registry_ok_same
             (load_entries births 0 (get (cfg_animals cfg) [])
                (set_next_animal_id 1
                   (set_animals [] (load_fence cfg (load_settings cfg s))))));
      [reflexivity | reflexivity |].
    apply load_entries_registry_ok. repeat split; constructor.
  - destruct (load_config_tail_untouched c fpath cfg births s)
      as (_ & _ & _ & _ & _ & Ha & Hr & Hj & _).
    rewrite Ha, Hr, Hj. unfold load_fence. cbv zeta.
    repeat match goal with
           | |- context [if ?c then _ else _] => destruct c
           | |- context [match fence_polygon_id ?u with Some _ => _ | None => _ end] =>
               destruct (fence_polygon_id u)
           end; repeat split.
Qed.

(** What the callbacks that do not run a tick leave alone. *)
Definition quiet {F : Type} (s s' : t F) : Prop :=
  alerts s' = alerts s /\ sim_running s' = sim_running s /\ job s' = job s.

Lemma untouched_quiet {F : Type} (s s' : t F) : untouched_by_spawn s s' -> quiet s s'.
Proof. intros (_ & _ & _ & _ & _ & Ha & Hr & Hj & _). repeat split; assumption. Qed.

Ltac split_branches :=
  repeat match goal with
         | |- context [if ?c then _ else _] => destruct c
         | |- context [match fence_polygon_id ?u with Some _ => _ | None => _ end] =>
             destruct (fence_polygon_id u)
         | |- context [match keys ?d with [] => _ | _ :: _ => _ end] => destruct (keys d)
         | |- context [match ?p with EmptyString => _ | String _ _ => _ end] => destruct p
         end.

(** Fence drawing, saving and the entry fields touch neither the registry
    nor the log nor the timer. *)
Lemma plain_callbacks {F : Type} `{Num F} (cb : Callback F) (s : t F) :
  match cb with
  | Toggle_draw_mode | Canvas_click _ _ | Finish_polygon | Clear_fence
  | Save_config _ | Edit_canvas_w _ | Edit_canvas_h _ | Edit_tick_ms _
  | Edit_init_animal_count _ | Edit_speed_mul _ | Edit_animal_size _ =>
      animals (call cb s) = animals s /\
      next_animal_id (call cb s) = next_animal_id s /\ quiet s (call cb s)
  | _ => True
  end.
Proof.
  destruct cb; try exact I; simpl;
    unfold toggle_draw_mode, canvas_click, finish_polygon, clear_fence, save_config,
           quiet; split_branches; repeat split.
Qed.

Lemma call_registry_ok {F : Type} `{Num F} (cb : Callback F) (s : t F) :
  registry_ok s -> registry_ok (call cb s).
Proof.
  intros Hok. pose proof (plain_callbacks cb s) as Hplain.
  destruct cb; simpl in *;
    try (destruct Hplain as (Ha & Hn & _); exact (registry_ok_same _ _ Ha Hn Hok)).
  - apply create_animal_ok. exact Hok.
  - apply create_animal_ok. exact Hok.
  - apply remove_last_ok. exact Hok.
  - exact (proj1 (reset_animals_final draws s)).
  - rewrite start_simulation_unfold. destruct (sim_running s); [exact Hok|].
    apply tick_registry_ok. apply started_registry_ok. exact Hok.
  - unfold stop_simulation. split_branches; exact Hok.
  - destruct (job s); [apply tick_registry_ok|]; exact Hok.
  - exact (proj1 (load_config_final fpath file births s) Hok).
Qed.

Lemma call_timer_invariant {F : Type} `{Num F} (cb : Callback F) (s : t F) :
  (job s = true -> sim_running s = true) ->
  job (call cb s) = true -> sim_running (call cb s) = true.
Proof.
  intros Hinv. pose proof (plain_callbacks cb s) as Hplain.
  assert (Hquiet : forall s', quiet s s' -> job s' = true -> sim_running s' = true).
  { intros s' (_ & Hr & Hj). rewrite Hr, Hj. exact Hinv. }
  destruct cb; simpl in *;
    try (destruct Hplain as (_ & _ & Hq); exact (Hquiet _ Hq)).
  - apply Hquiet, untouched_quiet, create_animal_untouched.
  - apply Hquiet, untouched_quiet, create_animal_untouched.
  - apply Hquiet. unfold remove_last_animal, quiet. split_branches; repeat split.
  - apply Hquiet, untouched_quiet. exact (proj2 (reset_animals_final draws s)).
  - rewrite start_simulation_unfold. destruct (sim_running s) eqn:Hrun.
    + simpl. rewrite Hrun. intros _. reflexivity.
    + destruct (tick_final env (started s)) as (_ & _ & _ & Hr & _).
      rewrite Hr. intros _. reflexivity.
  - unfold stop_simulation. destruct (sim_running s) eqn:Hrun; simpl.
    + destruct (job s) eqn:Ej; simpl; rewrite ?Ej; discriminate.
    + rewrite Hrun. exact Hinv.
  - destruct (job s) eqn:Hjob; [|rewrite Hjob; discriminate].
    destruct (tick_final env s) as (_ & _ & _ & Hr & _).
    rewrite Hr. intros _. exact (Hinv eq_refl).
  - destruct (load_config_final fpath file births s) as (_ & _ & Hr & Hj).
    rewrite Hr, Hj. exact Hinv.
Qed.

Lemma init_registry_ok {F : Type} `{Num F} (draws : nat -> Spawn F) :
  registry_ok (final (init draws)) /\
  (job (final (init draws)) = true -> sim_running (final (init draws)) = true).
Proof.
  unfold init.
  destruct (add_random_animals_final draws (Z.to_nat (init_animal_count fresh)) 0 fresh)
    as [Hok (_ & _ & _ & _ & _ & _ & Hr & Hj & _)].
  split; [exact (Hok fresh_ok)|]. rewrite Hr, Hj. discriminate.
Qed.

(** In every state of a session the registry is well formed and a tick
    is pending only while the simulation runs. *)
Lemma session_invariant {F : Type} `{Num F} (s : t F) :
  reachable s ->
  registry_ok s /\ (job s = true -> sim_running s = true).
Proof.
  induction 1 as [draws | cb s _ [IHok IHjob]].
  - apply init_registry_ok.
  - split; [exact (call_registry_ok cb s IHok) | exact (call_timer_invariant cb s IHjob)].
Qed.

(** X17. In every state a session can reach, by any sequence of buttons,
    clicks, edits, loads and timer ticks, completed or cut by an
    exception, the registered animals have pairwise distinct ids, each is
    stored under its own id, and every id is below the id counter. *)
Theorem reachable_ids_distinct {F : Type} `{Num F} (s : t F) :
  reachable s ->
  NoDup (ids s) /\
  ids s = keys (animals s) /\
  Forall (fun k => k < next_animal_id s) (ids s).
Proof.
  intros Hreach. destruct (session_invariant s Hreach) as [(Hid & Hbelow & Hnd) _].
  rewrite (ids_keys s Hid). repeat split; assumption.
Qed.

(** X18. Stop stops.  In every state a session can reach, after
    [stop_simulation] the simulation is marked stopped and no tick is
    pending, so the timer runs nothing until the simulation is started
    again. *)
Theorem stop_simulation_stops {F : Type} `{Num F} (s : t F) (env : Tick F) :
  reachable s ->
  sim_running (stop_simulation s) = false /\
  job (stop_simulation s) = false /\
  call (Timer env) (stop_simulation s) = stop_simulation s.
Proof.
  intros Hreach. destruct (session_invariant s Hreach) as [_ Hjob].
  assert (Hstop : sim_running (stop_simulation s) = false /\
                  job (stop_simulation s) = false).
  { unfold stop_simulation. destruct (sim_running s) eqn:Hrun; simpl.
    - destruct (job s) eqn:Ej; simpl; rewrite ?Ej; split; reflexivity.
    - rewrite Hrun. split; [reflexivity|].
      destruct (job s); [specialize (Hjob eq_refl); discriminate | reflexivity]. }
  destruct Hstop as [Hr Hj]. repeat split; auto.
  simpl. rewrite Hj. reflexivity.
Qed.

(** X19. The alert log is append-only.  No callback removes or rewrites
    a row: the log after a callback is the log before it followed by the
    rows the callback appended, and only a tick (the timer, or the tick
    that starting the simulation runs) appends any. *)
Theorem alerts_append_only {F : Type} `{Num F} (cb : Callback F) (s : t F) :
  exists rows,
    alerts (call cb s) = alerts s ++ rows /\
    match cb with
    | Start_simulation _ | Timer _ => True
    | _ => rows = []
    end.
Proof.
  pose proof (plain_callbacks cb s) as Hplain.
  assert (Hquiet : forall s', quiet s s' -> alerts s' = alerts s ++ []).
  { intros s' (Ha & _). rewrite app_nil_r. exact Ha. }
  destruct cb; simpl in *;
    try (destruct Hplain as (_ & _ & Hq); exists []; split; [exact (Hquiet _ Hq) | reflexivity]).
  - exists []. split; [|reflexivity].
    apply Hquiet, untouched_quiet, create_animal_untouched.
  - exists []. split; [|reflexivity].
    apply Hquiet, untouched_quiet, create_animal_untouched.
  - exists []. split; [|reflexivity].
    apply Hquiet. unfold remove_last_animal, quiet. split_branches; repeat split.
  - exists []. split; [|reflexivity].
    apply Hquiet, untouched_quiet. exact (proj2 (reset_animals_final draws s)).
  - rewrite start_simulation_unfold. destruct (sim_running s).
    + exists []. split; [simpl; rewrite app_nil_r; reflexivity | exact I].
    + destruct (tick_final env (started s)) as (_ & _ & _ & _ & _ & rows & Hrows).
      change (alerts (started s)) with (alerts s) in Hrows.
      exists rows. split; [exact Hrows | exact I].
  - exists []. split; [|reflexivity].
    rewrite app_nil_r. unfold stop_simulation. split_branches; reflexivity.
  - destruct (job s).
    + destruct (tick_final env s) as (_ & _ & _ & _ & _ & rows & Hrows).
      exists rows. split; [exact Hrows | exact I].
    + exists []. split; [rewrite app_nil_r; reflexivity | exact I].
  - exists []. split; [|reflexivity].
    destruct (load_config_final fpath file births s) as (_ & Ha & _).
    rewrite app_nil_r. exact Ha.
Qed.

(** A session: start-up with eight animals at (50,50), then Start. *)
Definition running_session : t float :=
  call (Start_simulation calm) (final (init (fun _ => spawn_at 50 50))).

Lemma running_session_reachable : reachable running_session.
Proof. apply reachable_call. apply reachable_init. Qed.

Lemma reachable_ids_distinct_witness :
  NoDup (ids running_session) /\ ids running_session = [1; 2; 3; 4; 5; 6; 7; 8].
Proof.
  split.
  - exact (proj1 (reachable_ids_distinct running_session running_session_reachable)).
  - vm_compute. reflexivity.
Defined.

Lemma stop_simulation_stops_witness :
  job running_session = true /\ job (stop_simulation running_session) = false.
Proof.
  split; [vm_compute; reflexivity|].
  exact (proj1 (proj2 (stop_simulation_stops running_session calm
                         running_session_reachable))).
Defined.

(** ** The sign of the speed *)

Lemma R_hypot_scale_abs (a b k : R) :
  R_hypot (a * k) (b * k) = (R_hypot a b * Rabs k)%R.
Proof.
  unfold R_hypot.
  replace (a * k * (a * k) + b * k * (b * k))%R with ((a * a + b * b) * (k * k))%R by ring.
  rewrite R_sqrt.sqrt_mult_alt by nra.
  replace (k * k)%R with (Rsqr k) by reflexivity.
  rewrite R_sqrt.sqrt_Rsqr_abs. reflexivity.
Qed.

(** X20. Over the exact reals, whatever the sign of the speed
    [base_speed * speed_multiplier]: after [step] the magnitude of the
    velocity is the absolute value of the speed scaled by
    norm / max(1e-6, norm), the norm being that of the velocity after the
    wander draws.  Hence a zero multiplier stops the animal where it is,
    and a negative multiplier does not slow it down: with a norm of at
    least 1e-6 it moves at the full absolute speed. *)
Theorem step_magnitude_any_sign (a : Animal.t R) (w : Animal.Wander R) :
  magnitude (Animal.step w a) =
    (wandered_norm w a / pymax lit_1e_6 (wandered_norm w a) * Rabs (Animal.speed a))%R /\
  (Animal.speed_multiplier a = 0%R ->
   Animal.x (Animal.step w a) = Animal.x a /\ Animal.y (Animal.step w a) = Animal.y a /\
   magnitude (Animal.step w a) = 0%R) /\
  ((Animal.speed a < 0)%R -> (lit_1e_6 <= wandered_norm w a)%R ->
   magnitude (Animal.step w a) = (- Animal.speed a)%R).
Proof.
  assert (Hgen : magnitude (Animal.step w a) =
    (wandered_norm w a / pymax lit_1e_6 (wandered_norm w a) * Rabs (Animal.speed a))%R).
  { unfold magnitude, Animal.step, wandered_norm.
    cbn -[R_hypot pymax Animal.speed].
    set (h := R_hypot (Animal.vx a + Animal.dvx w) (Animal.vy a + Animal.dvy w)).
    rewrite pymax_R.
    assert (Hn : (0 < Rmax (/ 1000000) h)%R).
    { apply Rlt_le_trans with (/ 1000000)%R; [lra | apply Rmax_l]. }
    set (n := Rmax (/ 1000000) h) in *.
    replace ((Animal.vx a + Animal.dvx w) / n * Animal.speed a)%R
      with ((Animal.vx a + Animal.dvx w) * (Animal.speed a / n))%R by (field; lra).
    replace ((Animal.vy a + Animal.dvy w) / n * Animal.speed a)%R
      with ((Animal.vy a + Animal.dvy w) * (Animal.speed a / n))%R by (field; lra).
    rewrite R_hypot_scale_abs. fold h.
    unfold Rdiv at 1. rewrite Rabs_mult, (Rabs_right (/ n)).
    - field. lra.
    - left. apply Rinv_0_lt_compat. exact Hn. }
  split; [exact Hgen|]. split.
  - intros Hzero.
    assert (Hs : Animal.speed a = 0%R) by (unfold Animal.speed; cbn; rewrite Hzero; ring).
    split; [|split].
    + unfold Animal.step. cbn -[pymax Animal.speed]. rewrite Hs. ring.
    + unfold Animal.step. cbn -[pymax Animal.speed]. rewrite Hs. ring.
    + rewrite Hgen, Hs, Rabs_R0. ring.
  - intros Hneg Hnorm. rewrite Hgen, pymax_R.
    cbn -[wandered_norm Animal.speed] in *.
    rewrite Rmax_right by exact Hnorm. rewrite Rabs_left by exact Hneg.
    field. lra.
Qed.

(** An animal whose multiplier is -1/4, heading east. *)
Definition backward : Animal.t R :=
  Animal.set_speed_multiplier (- (1 / 4))%R slow.

Lemma step_magnitude_any_sign_witness :
  magnitude (Animal.step {| Animal.dvx := 0%R; Animal.dvy := 0%R |} backward) = (1 / 4)%R.
Proof.
  destruct (step_magnitude_any_sign backward {| Animal.dvx := 0%R; Animal.dvy := 0%R |})
    as (_ & _ & Hneg).
  rewrite Hneg.
  - unfold Animal.speed; cbn. field.
  - unfold Animal.speed; cbn. lra.
  - unfold wandered_norm; cbn. unfold R_hypot.
    replace ((1 / 4 + 0) * (1 / 4 + 0) + (0 + 0) * (0 + 0))%R with ((1 / 4) * (1 / 4))%R
      by field.
    rewrite R_sqrt.sqrt_square by lra. lra.
Defined.
